(** * py_agterm: a shallow embedding of [AGTerm] (src/py_agterm/AGTerm.py)

    Bytes are integers in [0, 255] kept as [Z]; Python text ([str]) is a
    list of code points, also as [Z].  The sanitizer is modelled step by
    step: the byte regex [ANSI_RE] with Python's [re.sub] scan, the UTF-8
    decoder with [errors="replace"], the two [str.replace] calls, the
    shell-integration [re.sub] and the final character filter.  The session
    is a record; [read_until_ready] is an explicit loop over the clock
    readings and reader-thread events observed between its iterations. *)

From Stdlib Require Import String ZArith Lia List Bool.
Import ListNotations.
Open Scope Z_scope.

(** ** Byte and character classes *)

Definition in_rng (lo hi x : Z) : bool := (lo <=? x) && (x <=? hi).

Fixpoint skip_while (p : Z -> bool) (l : list Z) : list Z :=
  match l with
  | [] => []
  | x :: r => if p x then skip_while p r else l
  end.

(** ** [re.sub] with a matcher that never matches the empty string

    [m l] tries the pattern at the head of [l] and returns what follows the
    match.  Python scans left to right, drops each match and resumes after
    it; where nothing matches it keeps one element and moves on. *)

Fixpoint re_sub_fuel (m : list Z -> option (list Z)) (fuel : nat) (l : list Z)
  : list Z :=
  match fuel with
  | O => l
  | S f =>
      match l with
      | [] => []
      | x :: r =>
          match m l with
          | Some rest => re_sub_fuel m f rest
          | None => x :: re_sub_fuel m f r
          end
      end
  end.

Definition re_sub (m : list Z -> option (list Z)) (l : list Z) : list Z :=
  re_sub_fuel m (length l) l.

(** ** [ANSI_RE]

    [rb"\x1b(?:[@-Z\\-_]|\[[0-?]*[ -/]*[@-~]|\][0-9]*;[\s\S]*?(?:\x07|\x1b\\))"]

    The first alternative is the class [@-Z] plus the range [\\-_], that is
    0x40-0x5A and 0x5C-0x5F.  Alternatives are tried in order.  In the CSI
    alternative the classes [0-?], [ -/] and [@-~] are disjoint, so greedy
    scanning without backtracking finds the same match as the regex engine. *)

(** The lazy [[\s\S]*?] followed by [(?:\x07|\x1b\\)]: the first BEL or
    ESC-backslash ends the match. *)
Fixpoint osc_body (l : list Z) : option (list Z) :=
  match l with
  | [] => None
  | b :: r =>
      if b =? 7 then Some r
      else if b =? 27 then
        match r with
        | c :: r' => if c =? 92 then Some r' else osc_body r
        | [] => None
        end
      else osc_body r
  end.

Definition ansi_match (l : list Z) : option (list Z) :=
  match l with
  | e :: c :: r =>
      if e =? 27 then
        if in_rng 64 90 c || in_rng 92 95 c then Some r
        else if c =? 91 then
          match skip_while (in_rng 32 47) (skip_while (in_rng 48 63) r) with
          | f :: r3 => if in_rng 64 126 f then Some r3 else None
          | [] => None
          end
        else if c =? 93 then
          match skip_while (in_rng 48 57) r with
          | s :: r2 => if s =? 59 then osc_body r2 else None
          | [] => None
          end
        else None
      else None
  | _ => None
  end.

(** ** [bytes.decode("utf-8", errors="replace")]

    CPython replaces each maximal ill-formed subpart by one U+FFFD. *)

Definition REPLACEMENT : Z := 65533.

Definition is_cont (b : Z) : bool := in_rng 128 191 b.

Definition lo3 (b0 : Z) : Z := if b0 =? 224 then 160 else 128.
Definition hi3 (b0 : Z) : Z := if b0 =? 237 then 159 else 191.
Definition lo4 (b0 : Z) : Z := if b0 =? 240 then 144 else 128.
Definition hi4 (b0 : Z) : Z := if b0 =? 244 then 143 else 191.

Fixpoint decode_utf8 (bs : list Z) : list Z :=
  match bs with
  | [] => []
  | b0 :: r0 =>
      if in_rng 0 127 b0 then b0 :: decode_utf8 r0
      else if in_rng 194 223 b0 then
        match r0 with
        | b1 :: r1 =>
            if is_cont b1
            then ((b0 - 192) * 64 + (b1 - 128)) :: decode_utf8 r1
            else REPLACEMENT :: decode_utf8 r0
        | [] => [REPLACEMENT]
        end
      else if in_rng 224 239 b0 then
        match r0 with
        | b1 :: r1 =>
            if in_rng (lo3 b0) (hi3 b0) b1 then
              match r1 with
              | b2 :: r2 =>
                  if is_cont b2
                  then ((b0 - 224) * 4096 + (b1 - 128) * 64 + (b2 - 128))
                         :: decode_utf8 r2
                  else REPLACEMENT :: decode_utf8 r1
              | [] => [REPLACEMENT]
              end
            else REPLACEMENT :: decode_utf8 r0
        | [] => [REPLACEMENT]
        end
      else if in_rng 240 244 b0 then
        match r0 with
        | b1 :: r1 =>
            if in_rng (lo4 b0) (hi4 b0) b1 then
              match r1 with
              | b2 :: r2 =>
                  if is_cont b2 then
                    match r2 with
                    | b3 :: r3 =>
                        if is_cont b3
                        then ((b0 - 240) * 262144 + (b1 - 128) * 4096
                              + (b2 - 128) * 64 + (b3 - 128)) :: decode_utf8 r3
                        else REPLACEMENT :: decode_utf8 r2
                    | [] => [REPLACEMENT]
                    end
                  else REPLACEMENT :: decode_utf8 r1
              | [] => [REPLACEMENT]
              end
            else REPLACEMENT :: decode_utf8 r0
        | [] => [REPLACEMENT]
        end
      else REPLACEMENT :: decode_utf8 r0
  end.

(** ** [str.encode()] (UTF-8, strict): a lone surrogate raises. *)

Definition encode_char (c : Z) : option (list Z) :=
  if in_rng 0 127 c then Some [c]
  else if in_rng 128 2047 c then Some [192 + c / 64; 128 + c mod 64]
  else if in_rng 55296 57343 c then None
  else if in_rng 2048 65535 c then
    Some [224 + c / 4096; 128 + (c / 64) mod 64; 128 + c mod 64]
  else if in_rng 65536 1114111 c then
    Some [240 + c / 262144; 128 + (c / 4096) mod 64;
          128 + (c / 64) mod 64; 128 + c mod 64]
  else None.

Fixpoint encode_utf8 (t : list Z) : option (list Z) :=
  match t with
  | [] => Some []
  | c :: r =>
      match encode_char c, encode_utf8 r with
      | Some b, Some bs => Some (b ++ bs)
      | _, _ => None
      end
  end.

(** ** Text steps of [_sanitize] *)

(** [text.replace("\r\n", "\n")] *)
Fixpoint replace_crlf (t : list Z) : list Z :=
  match t with
  | [] => []
  | c :: r =>
      if c =? 13 then
        match r with
        | d :: r' => if d =? 10 then 10 :: replace_crlf r' else c :: replace_crlf r
        | [] => [c]
        end
      else c :: replace_crlf r
  end.

(** [.replace("\r", "\n")] *)
Definition replace_cr (t : list Z) : list Z :=
  map (fun c => if c =? 13 then 10 else c) t.

(** The lazy [.*?\x07]: [.] does not match a linefeed. *)
Fixpoint lazy_to_bel (t : list Z) : option (list Z) :=
  match t with
  | [] => None
  | c :: r => if c =? 7 then Some r else if c =? 10 then None else lazy_to_bel r
  end.

(** [r"133;[A-Z];.*?\x07"] at the head of the text. *)
Definition shell_mark_match (t : list Z) : option (list Z) :=
  match t with
  | a :: b :: c :: d :: x :: e :: r =>
      if (a =? 49) && (b =? 51) && (c =? 51) && (d =? 59) && in_rng 65 90 x
         && (e =? 59)
      then lazy_to_bel r else None
  | _ => None
  end.

(** [ch >= " " or ch in "\n\t"] *)
Definition keep_char (ch : Z) : bool := (32 <=? ch) || (ch =? 10) || (ch =? 9).

Definition sanitize_text (text : list Z) : list Z :=
  let text := replace_cr (replace_crlf text) in
  let text := re_sub shell_mark_match text in
  filter keep_char text.

(** [AGTerm._sanitize] *)
Definition sanitize (data : list Z) : list Z :=
  match data with
  | [] => []
  | _ :: _ =>
      let clean := re_sub ansi_match data in
      sanitize_text (decode_utf8 clean)
  end.

(** ** Python text helpers *)

(** [m in text] for strings *)
Fixpoint is_prefix (p t : list Z) : bool :=
  match p, t with
  | [], _ => true
  | _ :: _, [] => false
  | x :: p', y :: t' => (x =? y) && is_prefix p' t'
  end.

Fixpoint is_infix (p t : list Z) : bool :=
  is_prefix p t || match t with [] => false | _ :: t' => is_infix p t' end.

(** [str.isspace] for one character (Unicode White_Space, as CPython uses). *)
Definition py_isspace (c : Z) : bool :=
  in_rng 9 13 c || in_rng 28 32 c || (c =? 133) || (c =? 160) || (c =? 5760)
  || in_rng 8192 8202 c || (c =? 8232) || (c =? 8233) || (c =? 8239)
  || (c =? 8287) || (c =? 12288).

(** [str.rstrip()] *)
Definition rstrip (t : list Z) : list Z := rev (skip_while py_isspace (rev t)).

(** Lexicographic [<=] on [str]. *)
Fixpoint py_str_le (a b : list Z) : bool :=
  match a, b with
  | [], _ => true
  | _ :: _, [] => false
  | x :: a', y :: b' => (x <? y) || ((x =? y) && py_str_le a' b')
  end.

(** [seq[-k:]] style slicing: [seq[i:]] with Python's index rules. *)
Definition py_slice_from (i : Z) (l : list Z) : list Z :=
  let n := Z.of_nat (length l) in
  let start := if i <? 0 then Z.max 0 (n + i) else Z.min i n in
  skipn (Z.to_nat start) l.

(** ** Exceptions and results *)

Inductive py_exn :=
| PtyError (msg : String.string)
(** [PtyTimeoutError(message, last_output)] formats [last_output[-150:]]
    into its message; the slice is kept as the diagnostic. *)
| PtyTimeoutError (msg : String.string) (diagnostic : list Z)
| UnicodeEncodeError
| TypeError.

Definition mk_timeout_error (message : String.string) (last_output : list Z) : py_exn :=
  PtyTimeoutError message (py_slice_from (-150) last_output).

Inductive result (A : Type) :=
| Ok (a : A)
| Err (e : py_exn).
Arguments Ok {A} a.
Arguments Err {A} e.

(** ** The session object *)

Record Session := mkSession {
  buffer : list Z;
  history : list Z;
  running : bool;
  (** [self.proc]: [None] before [start], else whether [poll()] reports an
      exit status *)
  proc : option bool;
  markers : list (list Z);
  max_history : Z;
  master_fd : option Z;
  (** bytes written so far to the terminal's input side *)
  sent : list Z
}.

Definition set_buffer (s : Session) (b : list Z) : Session :=
  mkSession b (history s) (running s) (proc s) (markers s) (max_history s)
    (master_fd s) (sent s).
Definition set_history (s : Session) (h : list Z) : Session :=
  mkSession (buffer s) h (running s) (proc s) (markers s) (max_history s)
    (master_fd s) (sent s).
Definition set_running (s : Session) (r : bool) : Session :=
  mkSession (buffer s) (history s) r (proc s) (markers s) (max_history s)
    (master_fd s) (sent s).
Definition set_proc (s : Session) (p : option bool) : Session :=
  mkSession (buffer s) (history s) (running s) p (markers s) (max_history s)
    (master_fd s) (sent s).
Definition set_master_fd (s : Session) (fd : option Z) : Session :=
  mkSession (buffer s) (history s) (running s) (proc s) (markers s)
    (max_history s) fd (sent s).
Definition set_sent (s : Session) (o : list Z) : Session :=
  mkSession (buffer s) (history s) (running s) (proc s) (markers s)
    (max_history s) (master_fd s) o.

(** [if self.master_fd:] -- [None] and descriptor 0 are both falsy. *)
Definition fd_truthy (fd : option Z) : bool :=
  match fd with Some n => negb (n =? 0) | None => false end.

(** [is_alive]: [self._running and self.proc and self.proc.poll() is None] *)
Definition is_alive (s : Session) : bool :=
  running s && match proc s with Some exited => negb exited | None => false end.

(** ** [_reader_loop] *)

(** One non-empty chunk, under the lock: extend buffer and history, trim
    history with [self.history[-self.max_history:]]. *)
Definition reader_chunk (s : Session) (chunk : list Z) : Session :=
  let h := history s ++ chunk in
  let h := if Z.of_nat (length h) >? max_history s
           then py_slice_from (- max_history s) h else h in
  set_history (set_buffer s (buffer s ++ chunk)) h.

(** What can happen while a caller waits: a chunk arrives, the reader loop
    ends ([self._running = False]) or the child exits. *)
Inductive reader_event :=
| ReaderChunk (chunk : list Z)
| ReaderExit
| ProcExit.

Definition apply_event (s : Session) (ev : reader_event) : Session :=
  match ev with
  | ReaderChunk c => reader_chunk s c
  | ReaderExit => set_running s false
  | ProcExit => set_proc s (option_map (fun _ => true) (proc s))
  end.

Definition apply_events (s : Session) (evs : list reader_event) : Session :=
  fold_left apply_event evs s.

(** ** [read_until_ready] *)

Inductive check_outcome :=
| Done (r : result (list Z)) (s : Session)
| Waiting (s : Session).

(** One pass of the [while True] body, under the lock, at clock [now]. *)
Definition rur_check (deadline now : Z) (s : Session) : check_outcome :=
  let current_text := sanitize (buffer s) in
  match find (fun m => is_infix m current_text) (markers s) with
  | Some _ => Done (Ok current_text) (set_buffer s [])
  | None =>
      if deadline - now <=? 0
      then Done (Err (mk_timeout_error "Timeout"%string current_text)) s
      else if negb (is_alive s)
      then Done (Err (PtyError "Subprocess died"%string)) s
      else Waiting s
  end.

(** The loop: after each wait, the events seen meanwhile and the next clock
    reading.  [None] when the trace ends while the call is still waiting;
    otherwise the result, the final session and the number of waits. *)
Fixpoint rur_loop (deadline now : Z) (s : Session)
    (trace : list (list reader_event * Z)) : option (result (list Z) * Session * nat) :=
  match rur_check deadline now s with
  | Done r s' => Some (r, s', O)
  | Waiting s' =>
      match trace with
      | [] => None
      | (evs, now') :: tr =>
          match rur_loop deadline now' (apply_events s' evs) tr with
          | Some (r, s'', n) => Some (r, s'', S n)
          | None => None
          end
      end
  end.

(** [deadline = time.monotonic() + timeout_ms / 1000.0] with the clock in
    milliseconds: [t0] is read for the deadline, [t1] at the first check. *)
Definition read_until_ready (timeout_ms t0 t1 : Z) (s : Session)
    (trace : list (list reader_event * Z)) :=
  rur_loop (t0 + timeout_ms) t1 s trace.

(** ** Writer and lifecycle *)

Definition write_raw (s : Session) (data : list Z) : Session :=
  if fd_truthy (master_fd s) then set_sent s (sent s ++ data) else s.

(** [self.write_raw((text.rstrip() + "\n").encode())] *)
Definition write (s : Session) (text : list Z) : result Session :=
  match encode_utf8 (rstrip text ++ [10]) with
  | Some bs => Ok (write_raw s bs)
  | None => Err UnicodeEncodeError
  end.

(** [send_control], given [str.upper] on strings. *)
Definition send_control (py_upper : list Z -> list Z) (s : Session) (char : list Z)
  : result Session :=
  let char := py_upper char in
  if py_str_le [65] char && py_str_le char [90] then
    match char with
    | [c] => Ok (write_raw s [c - 65 + 1])
    | _ => Err TypeError   (* ord() of a string that is not one character *)
    end
  else Ok s.

(** [close]: [reaped] is whether [proc.wait(timeout=0.2)] saw the exit. *)
Definition close (reaped : bool) (s : Session) : Session :=
  let s := set_running s false in
  let s := set_proc s (option_map (fun _ => reaped) (proc s)) in
  if fd_truthy (master_fd s) then set_master_fd s None else s.

(** ** Vocabulary used by the statements below *)

(** Unicode general category Cc: U+0000-U+001F and U+007F-U+009F. *)
Definition is_control (c : Z) : bool := in_rng 0 31 c || in_rng 127 159 c.

(** A code point [str.encode()] accepts: not a surrogate. *)
Definition valid_scalar (c : Z) : bool :=
  in_rng 0 1114111 c && negb (in_rng 55296 57343 c).

(** Line breaks of a text: CR LF, a bare CR and a bare LF count one each. *)
Fixpoint line_breaks (t : list Z) : nat :=
  match t with
  | [] => O
  | c :: r =>
      if c =? 13 then
        match r with
        | d :: r' => if d =? 10 then S (line_breaks r') else S (line_breaks r)
        | [] => 1%nat
        end
      else if c =? 10 then S (line_breaks r) else line_breaks r
  end.

(** [str.upper] on U+0000-U+00FF (one- or two-character results), the
    identity elsewhere; only used to run [send_control] on examples. *)
Definition upper_latin1_char (c : Z) : list Z :=
  if in_rng 97 122 c then [c - 32]
  else if c =? 181 then [924]
  else if c =? 223 then [83; 83]
  else if in_rng 224 254 c && negb (c =? 247) then [c - 32]
  else if c =? 255 then [376]
  else [c].

Definition upper_latin1 (t : list Z) : list Z := flat_map upper_latin1_char t.

(** A freshly started session with the default markers and history cap. *)
Definition default_markers : list (list Z) :=
  [[36; 32]; [35; 32]; [112; 119; 110; 100; 98; 103; 62; 32];
   [40; 103; 100; 98; 41; 32]].

Definition started_session (fd : Z) : Session :=
  mkSession [] [] true (Some false) default_markers (5 * 1024 * 1024) (Some fd) [].

(** ** Construction, start, restart and composed operations *)

(** [self.markers = ready_markers or ["$ ", "# ", "pwndbg> ", "(gdb) "]]:
    [None] and the empty list are both falsy. *)
Definition init_markers (ready_markers : option (list (list Z))) : list (list Z) :=
  match ready_markers with
  | Some (m :: ms) => m :: ms
  | _ => default_markers
  end.

(** The fields [__init__] sets before it calls [start()]. *)
Definition agterm_init (max_history_bytes : Z) (ready_markers : option (list (list Z)))
  : Session :=
  mkSession [] [] false None (init_markers ready_markers) max_history_bytes None [].

(** [start]: [pty.openpty()] gives the descriptor [master], [Popen] starts a
    child that has not exited, then [self._running = True]. *)
Definition start (master : Z) (s : Session) : Session :=
  let s := set_master_fd s (Some master) in
  let s := set_proc s (Some false) in
  set_running s true.

(** [AGTerm(command, max_history_bytes, ready_markers)] *)
Definition agterm_new (master : Z) (max_history_bytes : Z)
    (ready_markers : option (list (list Z))) : Session :=
  start master (agterm_init max_history_bytes ready_markers).

(** [restart(wait_for_prompt, timeout_ms)]: close, clear buffer and history
    under the lock, start again, and optionally wait for the prompt.  The
    [None] result is the implicit [return None]. *)
Definition restart (reaped : bool) (master : Z) (wait_for_prompt : bool)
    (timeout_ms t0 t1 : Z) (s : Session) (trace : list (list reader_event * Z))
  : option (result (option (list Z)) * Session * nat) :=
  let s := close reaped s in
  let s := set_history (set_buffer s []) [] in
  let s := start master s in
  if wait_for_prompt then
    match read_until_ready timeout_ms t0 t1 s trace with
    | Some (Ok t, s', n) => Some (Ok (Some t), s', n)
    | Some (Err e, s', n) => Some (Err e, s', n)
    | None => None
    end
  else Some (Ok None, s, O).

(** The reader loop handling a sequence of non-empty chunks. *)
Definition reader_chunks (s : Session) (chunks : list (list Z)) : Session :=
  fold_left reader_chunk chunks s.

(** [send_and_read_until_ready(cmd, timeout_ms)]: [write] then
    [read_until_ready]; an exception of [write] propagates before any read. *)
Definition send_and_read_until_ready (cmd : list Z) (timeout_ms t0 t1 : Z)
    (s : Session) (trace : list (list reader_event * Z))
  : option (result (list Z) * Session * nat) :=
  match write s cmd with
  | Ok s1 => read_until_ready timeout_ms t0 t1 s1 trace
  | Err e => Some (Err e, s, O)
  end.



(** [AGTermSession.connect]: given the freshly constructed [AGTerm], send
    [""] and wait (default timeout) if it is alive; otherwise fall off the
    end of the function and return [None]. *)
Definition connect (s : Session) (t0 t1 : Z) (trace : list (list reader_event * Z))
  : option (result (option Session)) :=
  if is_alive s then
    match send_and_read_until_ready [] 10000 t0 t1 s trace with
    | Some (Ok _, s', _) => Some (Ok (Some s'))
    | Some (Err e, _, _) => Some (Err e)
    | None => None
    end
  else Some (Ok None).

(** * Properties *)

(** ** Supporting lemmas *)

(** [ESC ]] is already matched by the first alternative [[@-Z\\-_]] of
    [ANSI_RE]: the OSC alternative is never tried. *)
Lemma ansi_match_osc_intro (r : list Z) : ansi_match (27 :: 93 :: r) = Some r.
Proof. reflexivity. Qed.

Lemma sanitize_filter (x : list Z) :
  exists t, sanitize x = filter keep_char t.
Proof.
  destruct x as [|b r].
  - exists []. reflexivity.
  - eexists. reflexivity.
Qed.

Lemma sanitize_chars (x : list Z) (c : Z) :
  In c (sanitize x) -> keep_char c = true.
Proof.
  destruct (sanitize_filter x) as [t Ht]. rewrite Ht.
  intros Hin. apply filter_In in Hin. tauto.
Qed.

Lemma reader_chunk_history_bounded (s : Session) (chunk : list Z) :
  0 < max_history s ->
  Z.of_nat (length (history (reader_chunk s chunk))) <= max_history s.
Proof.
  intros Hpos. unfold reader_chunk, py_slice_from. simpl.
  set (h := history s ++ chunk).
  destruct (Z.of_nat (length h) >? max_history s) eqn:E.
  - rewrite Z.gtb_ltb in E. apply Z.ltb_lt in E.
    replace (- max_history s <? 0) with true by (symmetry; apply Z.ltb_lt; lia).
    rewrite length_skipn. lia.
  - rewrite Z.gtb_ltb in E. apply Z.ltb_ge in E. exact E.
Qed.

(** ** C1 *)

(** Claim C1: sanitize should remove a whole OSC sequence [ESC ] ... BEL]
    (or [ESC ] ... ESC \]), also when the terminator is missing.  In the code
    the OSC payload survives: [ESC ]] is removed alone, the BEL by the final
    filter, and ["0;title"] is left in the text, terminated or not. *)
Theorem sanitize_osc_payload_kept :
  sanitize [27; 93; 48; 59; 116; 105; 116; 108; 101; 7]
    = [48; 59; 116; 105; 116; 108; 101]
  /\ sanitize [27; 93; 48; 59; 116; 105; 116; 108; 101; 27; 92]
    = [48; 59; 116; 105; 116; 108; 101]
  /\ sanitize [27; 93; 48; 59; 116; 105; 116; 108; 101]
    = [48; 59; 116; 105; 116; 108; 101].
Proof. split; [|split]; vm_compute; reflexivity. Qed.

(** ** C4 *)

(** Claim C4: after each reader-loop append the history holds at most
    [max_history] bytes.  With [max_history = 0] the trim
    [self.history[-0:]] is the whole history, so one byte read leaves a
    history of one byte above the cap of zero. *)
Theorem reader_chunk_zero_cap_overflows :
  let s := mkSession [] [] true (Some false) default_markers 0 (Some 5) [] in
  history (reader_chunk s [97]) = [97]
  /\ Z.of_nat (length (history (reader_chunk s [97]))) > max_history s.
Proof. vm_compute. split; [reflexivity | reflexivity]. Qed.

(** ** C5 *)

(** Claim C5 counterexample: DEL (U+007F), a control character, is kept by
    sanitize. *)
Lemma sanitize_keeps_del :
  is_control 127 = true /\ In 127 (sanitize [127]).
Proof. vm_compute. split; [reflexivity | left; reflexivity]. Qed.

(** Claim C5, as the code does it: the output of sanitize contains no ESC
    and no character below U+0020 other than linefeed and horizontal tab. *)
Theorem sanitize_no_low_controls (x : list Z) (c : Z) :
  In c (sanitize x) -> c <> 27 /\ (c = 10 \/ c = 9 \/ 32 <= c).
Proof.
  intros Hin. apply sanitize_chars in Hin. unfold keep_char in Hin.
  apply orb_true_iff in Hin as [Hin | Hin]; [apply orb_true_iff in Hin as [Hin | Hin]|].
  - apply Z.leb_le in Hin. lia.
  - apply Z.eqb_eq in Hin. lia.
  - apply Z.eqb_eq in Hin. lia.
Qed.

Lemma sanitize_no_low_controls_witness :
  In 65 (sanitize [27; 91; 49; 109; 65]) /\ 65 <> 27 /\ (65 = 10 \/ 65 = 9 \/ 32 <= 65).
Proof.
  split.
  - vm_compute. left. reflexivity.
  - apply (sanitize_no_low_controls [27; 91; 49; 109; 65] 65).
    vm_compute. left. reflexivity.
Defined.

(** ** Ready-wait supporting lemmas *)

Lemma find_first {A : Type} (p : A -> bool) (l : list A) (x : A) :
  find p l = Some x ->
  p x = true /\
  exists pre post, l = pre ++ x :: post /\ Forall (fun y => p y = false) pre.
Proof.
  induction l as [|y l IH]; simpl; [discriminate|].
  destruct (p y) eqn:Hy.
  - intros [= <-]. split; [exact Hy|]. exists [], l. split; [reflexivity | constructor].
  - intros Hf. destruct (IH Hf) as [Hx [pre [post [Hl Hpre]]]].
    split; [exact Hx|]. exists (y :: pre), post. split.
    + simpl. rewrite Hl. reflexivity.
    + constructor; assumption.
Qed.

Lemma find_in_some {A : Type} (p : A -> bool) (l : list A) (x : A) :
  In x l -> p x = true -> exists y, find p l = Some y.
Proof.
  intros Hin Hx. destruct (find p l) as [y|] eqn:Hf; [eauto|].
  rewrite (find_none p l Hf x Hin) in Hx. discriminate.
Qed.

Lemma py_slice_tail (l : list Z) :
  (exists pre, pre ++ py_slice_from (-150) l = l)
  /\ length (py_slice_from (-150) l) = Nat.min 150 (length l).
Proof.
  unfold py_slice_from. cbv zeta.
  replace (-150 <? 0) with true by reflexivity. cbv iota.
  set (k := Z.to_nat (Z.max 0 (Z.of_nat (length l) + -150))).
  split.
  - exists (firstn k l). apply firstn_skipn.
  - rewrite length_skipn. unfold k.
    destruct (Nat.le_gt_cases (length l) 150).
    + rewrite Z.max_l by lia. rewrite Nat.min_r by lia. simpl. lia.
    + rewrite Z.max_r by lia.
      replace (Z.of_nat (length l) + -150) with (Z.of_nat (length l - 150)) by lia.
      rewrite Nat2Z.id, Nat.min_l by lia. lia.
Qed.

Lemma apply_events_buffer (s : Session) (evs : list reader_event) :
  exists extra, buffer (apply_events s evs) = buffer s ++ extra.
Proof.
  unfold apply_events. revert s.
  induction evs as [|ev evs IH]; intros s; simpl.
  - exists []. rewrite app_nil_r. reflexivity.
  - destruct (IH (apply_event s ev)) as [extra Hx]. rewrite Hx.
    destruct ev; simpl.
    + exists (chunk ++ extra). rewrite app_assoc. reflexivity.
    + exists extra. reflexivity.
    + exists extra. reflexivity.
Qed.

(** A call that ends in an error never removed a byte from the buffer. *)
Lemma rur_loop_err_keeps_buffer (deadline now : Z) (s : Session) trace e s' n :
  rur_loop deadline now s trace = Some (Err e, s', n) ->
  exists extra, buffer s' = buffer s ++ extra.
Proof.
  revert now s n. induction trace as [|[evs now'] tr IH]; intros now s n; simpl;
    unfold rur_check;
    destruct (find _ (markers s)) eqn:Hf; try discriminate;
    try (intros [= <- <- <-]; fail);
    destruct (deadline - now <=? 0);
    try (intros [= <- <-]; exists []; rewrite app_nil_r; reflexivity);
    destruct (negb (is_alive s));
    try (intros [= <- <-]; exists []; rewrite app_nil_r; reflexivity);
    try discriminate.
  destruct (rur_loop deadline now' (apply_events s evs) tr) as [[[r s''] k]|] eqn:Hl;
    [|discriminate].
  intros [= -> <- <-].
  destruct (IH now' (apply_events s evs) k Hl) as [e1 H1].
  destruct (apply_events_buffer s evs) as [e2 H2].
  exists (e2 ++ e1). rewrite H1, H2, app_assoc. reflexivity.
Qed.

(** ** C2 *)

(** Claim C2: when the sanitized buffer already contains a configured
    marker, [read_until_ready] returns at its first check, before any wait,
    with the sanitized text; the buffer is cleared; the marker that triggers
    the return is the first one of the marker list found in the text, and
    the text contains it. *)
Theorem read_until_ready_marker_present (timeout_ms t0 t1 : Z) (s : Session)
    trace (m : list Z) :
  In m (markers s) ->
  is_infix m (sanitize (buffer s)) = true ->
  read_until_ready timeout_ms t0 t1 s trace
    = Some (Ok (sanitize (buffer s)), set_buffer s [], 0%nat)
  /\ buffer (set_buffer s []) = []
  /\ exists m',
       find (fun p => is_infix p (sanitize (buffer s))) (markers s) = Some m'
       /\ is_infix m' (sanitize (buffer s)) = true
       /\ exists pre post,
            markers s = pre ++ m' :: post
            /\ Forall (fun p => is_infix p (sanitize (buffer s)) = false) pre.
Proof.
  intros Hin Hm.
  destruct (find_in_some (fun p => is_infix p (sanitize (buffer s))) _ _ Hin Hm)
    as [m' Hf].
  split; [|split].
  - unfold read_until_ready. destruct trace as [|[evs now'] tr];
      simpl; unfold rur_check; rewrite Hf; reflexivity.
  - reflexivity.
  - exists m'. split; [exact Hf|]. exact (find_first _ _ _ Hf).
Qed.

Lemma read_until_ready_marker_present_witness :
  let s := set_buffer (started_session 5) [104; 105; 10; 36; 32] in
  In [36; 32] (markers s) /\ is_infix [36; 32] (sanitize (buffer s)) = true
  /\ read_until_ready 10000 0 1 s [] = Some (Ok (sanitize (buffer s)), set_buffer s [], 0%nat).
Proof.
  intros s. split; [|split].
  - simpl. left. reflexivity.
  - vm_compute. reflexivity.
  - apply (read_until_ready_marker_present 10000 0 1 s [] [36; 32]).
    + simpl. left. reflexivity.
    + vm_compute. reflexivity.
Defined.

(** ** C3 *)

(** Claim C3: at a check where no marker matches and the deadline has
    passed, the call raises [PtyTimeoutError] carrying the last 150
    characters of the sanitized buffer (a suffix of it), and leaves the
    session, its buffer included, as it found it at that check; over the
    whole call, a failing [read_until_ready] only ever appended to the
    buffer. *)
Theorem read_until_ready_timeout (deadline now : Z) (s : Session) trace :
  find (fun m => is_infix m (sanitize (buffer s))) (markers s) = None ->
  deadline - now <= 0 ->
  (exists d,
     rur_loop deadline now s trace
       = Some (Err (PtyTimeoutError "Timeout" d), s, 0%nat)
     /\ (exists pre, pre ++ d = sanitize (buffer s))
     /\ length d = Nat.min 150 (length (sanitize (buffer s))))
  /\ (forall deadline0 now0 s0 trace0 e n,
        rur_loop deadline0 now0 s0 trace0 = Some (Err e, s, n) ->
        exists extra, buffer s = buffer s0 ++ extra).
Proof.
  intros Hf Hd. split.
  - exists (py_slice_from (-150) (sanitize (buffer s))).
    destruct (py_slice_tail (sanitize (buffer s))) as [Hpre Hlen].
    split; [|split; assumption].
    destruct trace as [|[evs now'] tr]; simpl; unfold rur_check; rewrite Hf;
      replace (deadline - now <=? 0) with true by (symmetry; apply Z.leb_le; lia);
      reflexivity.
  - intros deadline0 now0 s0 trace0 e n Hl.
    exact (rur_loop_err_keeps_buffer _ _ _ _ _ _ _ Hl).
Qed.

Lemma read_until_ready_timeout_witness :
  let s := set_buffer (started_session 5) [104; 105] in
  find (fun m => is_infix m (sanitize (buffer s))) (markers s) = None
  /\ 10000 - 10000 <= 0
  /\ exists d,
       rur_loop 10000 10000 s [] = Some (Err (PtyTimeoutError "Timeout" d), s, 0%nat)
       /\ (exists pre, pre ++ d = sanitize (buffer s))
       /\ length d = Nat.min 150 (length (sanitize (buffer s))).
Proof.
  intros s. split; [|split].
  - vm_compute. reflexivity.
  - lia.
  - apply (read_until_ready_timeout 10000 10000 s []).
    + vm_compute. reflexivity.
    + lia.
Defined.

(** ** C7 *)

(** Claim C7 counterexample: right after [close], a call with a 1 ms
    timeout whose first check comes 1 ms after the deadline was computed
    raises the timeout error, not the process-died error: the deadline
    test comes before the liveness test. *)
Lemma close_then_read_times_out :
  is_alive (close false (started_session 5)) = false
  /\ match read_until_ready 1 0 1 (close false (started_session 5)) [] with
     | Some (Err (PtyTimeoutError _ _), _, _) => True
     | _ => False
     end.
Proof. vm_compute. split; [reflexivity | exact I]. Qed.

(** Claim C7, as the code does it: after [close], [is_alive] is false and a
    call whose buffer holds no marker fails at its first check, without
    waiting: with "Subprocess died" if the deadline has not passed at that
    check, with the timeout error otherwise. *)
Theorem close_then_read_fails_at_once (reaped : bool) (s : Session)
    (timeout_ms t0 t1 : Z) trace :
  find (fun m => is_infix m (sanitize (buffer (close reaped s))))
       (markers (close reaped s)) = None ->
  is_alive (close reaped s) = false
  /\ read_until_ready timeout_ms t0 t1 (close reaped s) trace
     = Some (Err (if t0 + timeout_ms - t1 <=? 0
                  then mk_timeout_error "Timeout" (sanitize (buffer (close reaped s)))
                  else PtyError "Subprocess died"), close reaped s, 0%nat).
Proof.
  intros Hf.
  assert (Ha : is_alive (close reaped s) = false).
  { unfold close, is_alive. destruct (fd_truthy _); reflexivity. }
  split; [exact Ha|].
  unfold read_until_ready.
  destruct trace as [|[evs now'] tr]; simpl; unfold rur_check; rewrite Hf;
    destruct (t0 + timeout_ms - t1 <=? 0); try reflexivity;
    rewrite Ha; reflexivity.
Qed.

Lemma close_then_read_fails_at_once_witness :
  find (fun m => is_infix m (sanitize (buffer (close false (started_session 5)))))
       (markers (close false (started_session 5))) = None
  /\ read_until_ready 10000 0 3 (close false (started_session 5)) []
     = Some (Err (PtyError "Subprocess died"), close false (started_session 5), 0%nat).
Proof.
  split.
  - vm_compute. reflexivity.
  - apply (close_then_read_fails_at_once false (started_session 5) 10000 0 3 []).
    vm_compute. reflexivity.
Defined.

(** ** Writer supporting lemmas *)

Lemma skip_while_split (p : Z -> bool) (l : list Z) :
  exists pre, l = pre ++ skip_while p l
    /\ Forall (fun x => p x = true) pre
    /\ match skip_while p l with [] => True | x :: _ => p x = false end.
Proof.
  induction l as [|x r IH]; simpl.
  - exists []. repeat split. constructor.
  - destruct (p x) eqn:Hx.
    + destruct IH as [pre [Hr [Hpre Hhd]]].
      exists (x :: pre). split; [simpl; rewrite <- Hr; reflexivity|].
      split; [constructor; assumption | exact Hhd].
    + exists []. split; [reflexivity|]. split; [constructor | exact Hx].
Qed.

Lemma rstrip_split (t : list Z) :
  (exists ws, t = rstrip t ++ ws /\ Forall (fun c => py_isspace c = true) ws)
  /\ (forall init c, rstrip t = init ++ [c] -> py_isspace c = false).
Proof.
  destruct (skip_while_split py_isspace (rev t)) as [pre [Hr [Hpre Hhd]]].
  unfold rstrip. split.
  - exists (rev pre). split.
    + rewrite <- rev_app_distr, <- Hr, rev_involutive. reflexivity.
    + apply Forall_rev. exact Hpre.
  - intros init c He.
    destruct (skip_while py_isspace (rev t)) as [|x sw] eqn:Hsw.
    + destruct init; discriminate.
    + simpl in He. apply app_inj_tail in He as [_ ->]. exact Hhd.
Qed.

Lemma encode_utf8_app (a b : list Z) :
  encode_utf8 (a ++ b) =
  match encode_utf8 a, encode_utf8 b with
  | Some x, Some y => Some (x ++ y)
  | _, _ => None
  end.
Proof.
  induction a as [|c a IH]; simpl.
  - destruct (encode_utf8 b); reflexivity.
  - rewrite IH. destruct (encode_char c) as [e|];
      destruct (encode_utf8 a) as [x|]; destruct (encode_utf8 b) as [y|];
      try reflexivity.
    rewrite app_assoc. reflexivity.
Qed.

Lemma in_rng_true (lo hi x : Z) : in_rng lo hi x = true <-> lo <= x <= hi.
Proof.
  unfold in_rng. rewrite andb_true_iff, !Z.leb_le. tauto.
Qed.

Lemma in_rng_false (lo hi x : Z) : in_rng lo hi x = false <-> ~ (lo <= x <= hi).
Proof.
  rewrite <- in_rng_true. destruct (in_rng lo hi x); split; congruence.
Qed.

Lemma encode_char_valid (c : Z) :
  valid_scalar c = true -> exists b, encode_char c = Some b.
Proof.
  unfold valid_scalar. intros H.
  apply andb_true_iff in H as [H1 H2]. apply in_rng_true in H1.
  apply negb_true_iff in H2.
  unfold encode_char.
  destruct (in_rng 0 127 c) eqn:A1; [eauto|].
  destruct (in_rng 128 2047 c) eqn:A2; [eauto|].
  rewrite H2.
  destruct (in_rng 2048 65535 c) eqn:A3; [eauto|].
  replace (in_rng 65536 1114111 c) with true; [eauto|].
  symmetry. apply in_rng_true.
  apply in_rng_false in A1, A2, A3, H2. lia.
Qed.

Lemma encode_utf8_valid (t : list Z) :
  Forall (fun c => valid_scalar c = true) t -> exists bs, encode_utf8 t = Some bs.
Proof.
  induction 1 as [|c t Hc Ht IH]; simpl; [eauto|].
  destruct (encode_char_valid c Hc) as [b ->]. destruct IH as [bs ->]. eauto.
Qed.

(** ** C9 *)

(** Claim C9 counterexample: a text holding a lone surrogate makes
    [str.encode()] raise, so [write] sends nothing. *)
Lemma write_lone_surrogate_raises :
  write (started_session 5) [104; 55296] = Err UnicodeEncodeError.
Proof. vm_compute. reflexivity. Qed.

(** Claim C9, as the code does it: for a text of encodable code points (no
    lone surrogate), on a session whose terminal descriptor is set (and is
    not 0), [write] sends the UTF-8 bytes of the text without its trailing
    whitespace, then exactly one linefeed. *)
Theorem write_sends_rstripped (s : Session) (text : list Z) (fd : Z) :
  master_fd s = Some fd -> fd <> 0 ->
  Forall (fun c => valid_scalar c = true) text ->
  exists bs,
    encode_utf8 (rstrip text) = Some bs
    /\ write s text = Ok (set_sent s (sent s ++ bs ++ [10]))
    /\ (exists ws, text = rstrip text ++ ws
                   /\ Forall (fun c => py_isspace c = true) ws)
    /\ (forall init c, rstrip text = init ++ [c] -> py_isspace c = false).
Proof.
  intros Hfd Hnz Hvalid.
  destruct (rstrip_split text) as [[ws [Hws Hsp]] Hlast].
  assert (Hv : Forall (fun c => valid_scalar c = true) (rstrip text)).
  { rewrite Hws in Hvalid. apply Forall_app in Hvalid. tauto. }
  destruct (encode_utf8_valid _ Hv) as [bs Hbs].
  exists bs. split; [exact Hbs|]. split; [|split; [exists ws; split; assumption | exact Hlast]].
  unfold write. rewrite encode_utf8_app, Hbs. simpl.
  unfold write_raw, fd_truthy. rewrite Hfd.
  replace (fd =? 0) with false by (symmetry; apply Z.eqb_neq; exact Hnz).
  reflexivity.
Qed.

Lemma write_sends_rstripped_witness :
  master_fd (started_session 5) = Some 5 /\ 5 <> 0
  /\ Forall (fun c => valid_scalar c = true) [108; 115; 32; 10; 9]
  /\ exists bs,
       encode_utf8 (rstrip [108; 115; 32; 10; 9]) = Some bs
       /\ write (started_session 5) [108; 115; 32; 10; 9]
          = Ok (set_sent (started_session 5) (sent (started_session 5) ++ bs ++ [10]))
       /\ (exists ws, [108; 115; 32; 10; 9] = rstrip [108; 115; 32; 10; 9] ++ ws
                      /\ Forall (fun c => py_isspace c = true) ws)
       /\ (forall init c, rstrip [108; 115; 32; 10; 9] = init ++ [c] ->
                          py_isspace c = false).
Proof.
  split; [reflexivity|]. split; [lia|].
  assert (Hv : Forall (fun c => valid_scalar c = true) [108; 115; 32; 10; 9])
    by (repeat constructor).
  split; [exact Hv|].
  apply (write_sends_rstripped (started_session 5) [108; 115; 32; 10; 9] 5);
    [reflexivity | lia | exact Hv].
Defined.

(** ** C10 *)

(** Claim C10: [send_control] writes the control byte of a letter and does
    nothing for any other character.  For U+00DF, [str.upper] gives the two
    letters ["SS"], which pass the test ["A" <= char <= "Z"]; [ord("SS")]
    then raises [TypeError] instead of a silent no-op. *)
Theorem send_control_sharp_s_raises (py_upper : list Z -> list Z) (s : Session) :
  py_upper [223] = [83; 83] ->
  send_control py_upper s [223] = Err TypeError.
Proof.
  intros Hu. unfold send_control. rewrite Hu. reflexivity.
Qed.

Lemma send_control_sharp_s_raises_witness :
  upper_latin1 [223] = [83; 83]
  /\ send_control upper_latin1 (started_session 5) [223] = Err TypeError.
Proof.
  split; [reflexivity|].
  apply send_control_sharp_s_raises. reflexivity.
Defined.

(** ** Sanitizer supporting lemmas *)

Ltac rng_step :=
  match goal with
  | |- context [?a =? ?b] =>
      let E := fresh "E" in destruct (Z.eqb_spec a b) as [E|E]
  | |- context [in_rng ?lo ?hi ?e] =>
      let E := fresh "E" in
      destruct (in_rng lo hi e) eqn:E; [apply in_rng_true in E | apply in_rng_false in E]
  end.

Ltac rng_solve := repeat (rng_step; try (exfalso; lia)).

Lemma valid_scalar_intro (c : Z) :
  0 <= c <= 1114111 -> ~ (55296 <= c <= 57343) -> valid_scalar c = true.
Proof.
  intros H1 H2. unfold valid_scalar.
  apply andb_true_iff. split.
  - apply in_rng_true. exact H1.
  - apply negb_true_iff. apply in_rng_false. exact H2.
Qed.

(** Every code point the decoder produces can be encoded again. *)
Lemma decode_utf8_valid (bs : list Z) :
  Forall (fun c => valid_scalar c = true) (decode_utf8 bs).
Proof.
  remember (length bs) as n eqn:Hn. assert (Hle : (length bs <= n)%nat) by lia.
  clear Hn. revert bs Hle. induction n as [|n IH]; intros bs Hle.
  - destruct bs; [constructor | simpl in Hle; lia].
  - destruct bs as [|b0 r0]; [constructor|]. simpl in Hle.
    cbn [decode_utf8]. unfold lo3, hi3, lo4, hi4, is_cont, REPLACEMENT.
    repeat (rng_step || match goal with
                        | |- context [match ?l with [] => _ | _ :: _ => _ end] =>
                            destruct l
                        end).
    all: simpl in Hle.
    all: first
      [ constructor; [apply valid_scalar_intro; lia | constructor]
      | constructor; [apply valid_scalar_intro; lia | apply IH; simpl; lia] ].
Qed.

(** Decoding the encoding of one valid code point gives it back. *)
Lemma decode_encode_char (c : Z) (b rest : list Z) :
  valid_scalar c = true -> encode_char c = Some b ->
  decode_utf8 (b ++ rest) = c :: decode_utf8 rest.
Proof.
  unfold valid_scalar, encode_char. intros Hv He.
  apply andb_true_iff in Hv as [H1 H2]. apply in_rng_true in H1.
  apply negb_true_iff, in_rng_false in H2.
  rewrite (proj2 (in_rng_false 55296 57343 c) H2) in He.
  destruct (in_rng 0 127 c) eqn:A1; [apply in_rng_true in A1 | apply in_rng_false in A1];
  [injection He as <-; cbn [app decode_utf8];
   rewrite (proj2 (in_rng_true 0 127 c) A1); reflexivity|].
  destruct (in_rng 128 2047 c) eqn:A2; [apply in_rng_true in A2 | apply in_rng_false in A2].
  { assert (b = [192 + c / 64; 128 + c mod 64]) as -> by congruence.
    remember (192 + c / 64) as x0 eqn:Ex0. remember (128 + c mod 64) as x1 eqn:Ex1.
    cbn [app decode_utf8]. unfold is_cont.
    Z.to_euclidean_division_equations; rng_solve; f_equal; lia. }
  destruct (in_rng 2048 65535 c) eqn:A3; [apply in_rng_true in A3 | apply in_rng_false in A3].
  { assert (b = [224 + c / 4096; 128 + (c / 64) mod 64; 128 + c mod 64])
      as -> by congruence.
    remember (224 + c / 4096) as x0 eqn:Ex0.
    remember (128 + (c / 64) mod 64) as x1 eqn:Ex1.
    remember (128 + c mod 64) as x2 eqn:Ex2.
    cbn [app decode_utf8]. unfold is_cont, lo3, hi3.
    Z.to_euclidean_division_equations; rng_solve; f_equal; lia. }
  destruct (in_rng 65536 1114111 c) eqn:A4; [apply in_rng_true in A4 | discriminate].
  assert (b = [240 + c / 262144; 128 + (c / 4096) mod 64;
               128 + (c / 64) mod 64; 128 + c mod 64]) as -> by congruence.
  remember (240 + c / 262144) as x0 eqn:Ex0.
  remember (128 + (c / 4096) mod 64) as x1 eqn:Ex1.
  remember (128 + (c / 64) mod 64) as x2 eqn:Ex2.
  remember (128 + c mod 64) as x3 eqn:Ex3.
  cbn [app decode_utf8]. unfold is_cont, lo4, hi4.
  Z.to_euclidean_division_equations; rng_solve; f_equal; lia.
Qed.

Section ReSub.
Variable m : list Z -> option (list Z).

(** A match consumes a prefix of the input. *)
Hypothesis m_suffix : forall l rest, m l = Some rest -> exists pre, l = pre ++ rest.

Lemma re_sub_fuel_incl (f : nat) (l : list Z) (c : Z) :
  In c (re_sub_fuel m f l) -> In c l.
Proof.
  revert l. induction f as [|f IH]; intros l; simpl; [tauto|].
  destruct l as [|x r]; [tauto|].
  destruct (m (x :: r)) as [rest|] eqn:Hm.
  - intros Hin. destruct (m_suffix _ _ Hm) as [pre Hpre].
    rewrite Hpre. apply in_or_app. right. exact (IH rest Hin).
  - intros [Hx | Hin]; [left; exact Hx | right; exact (IH r Hin)].
Qed.

Variable P : Z -> Prop.
Hypothesis m_none : forall l, Forall P l -> m l = None.

Lemma re_sub_fuel_id (f : nat) (l : list Z) : Forall P l -> re_sub_fuel m f l = l.
Proof.
  revert l. induction f as [|f IH]; intros l Hl; simpl; [reflexivity|].
  destruct l as [|x r]; [reflexivity|].
  rewrite (m_none _ Hl). f_equal. apply IH. inversion Hl; assumption.
Qed.
End ReSub.

Section ReSubLines.
Variable m : list Z -> option (list Z).

(** A match never spans a linefeed. *)
Hypothesis m_no_lf :
  forall l rest, m l = Some rest -> exists pre, l = pre ++ rest /\ ~ In 10 pre.

Lemma re_sub_fuel_count_lf (f : nat) (l : list Z) :
  count_occ Z.eq_dec (re_sub_fuel m f l) 10 = count_occ Z.eq_dec l 10.
Proof.
  revert l. induction f as [|f IH]; intros l; simpl; [reflexivity|].
  destruct l as [|x r]; [reflexivity|].
  destruct (m (x :: r)) as [rest|] eqn:Hm.
  - destruct (m_no_lf _ _ Hm) as [pre [Hpre Hlf]].
    rewrite IH, Hpre, count_occ_app.
    apply (count_occ_not_In Z.eq_dec) in Hlf. rewrite Hlf. reflexivity.
  - simpl. rewrite IH. reflexivity.
Qed.
End ReSubLines.

Lemma lazy_to_bel_split (t rest : list Z) :
  lazy_to_bel t = Some rest -> exists pre, t = pre ++ 7 :: rest /\ ~ In 10 pre.
Proof.
  induction t as [|c r IH]; simpl; [discriminate|].
  destruct (Z.eqb_spec c 7) as [->|H7].
  - intros [= <-]. exists []. split; [reflexivity | simpl; tauto].
  - destruct (Z.eqb_spec c 10) as [H10|H10]; [discriminate|].
    intros Hl. destruct (IH Hl) as [pre [Hr Hpre]].
    exists (c :: pre). split; [rewrite Hr; reflexivity|].
    simpl. intros [Hc | Hin]; [lia | exact (Hpre Hin)].
Qed.

Lemma shell_mark_match_no_lf (l rest : list Z) :
  shell_mark_match l = Some rest -> exists pre, l = pre ++ rest /\ ~ In 10 pre.
Proof.
  unfold shell_mark_match.
  destruct l as [|a [|b [|c [|d [|x [|e r]]]]]]; try discriminate.
  destruct ((a =? 49) && (b =? 51) && (c =? 51) && (d =? 59) && in_rng 65 90 x
            && (e =? 59)) eqn:Hh; [|discriminate].
  intros Hl. destruct (lazy_to_bel_split _ _ Hl) as [pre [Hr Hpre]].
  repeat rewrite andb_true_iff in Hh.
  destruct Hh as [[[[[Ha Hb] Hc] Hd] Hx] He].
  apply Z.eqb_eq in Ha, Hb, Hc, Hd, He. apply in_rng_true in Hx.
  exists ([a; b; c; d; x; e] ++ pre ++ [7]). split.
  - rewrite Hr, <- !app_assoc. reflexivity.
  - intros H. apply in_app_iff in H as [H | H]; [simpl in H; lia|].
    apply in_app_iff in H as [H | H]; [exact (Hpre H) | simpl in H; lia].
Qed.

Lemma shell_mark_match_suffix (l rest : list Z) :
  shell_mark_match l = Some rest -> exists pre, l = pre ++ rest.
Proof.
  intros H. destruct (shell_mark_match_no_lf _ _ H) as [pre [Hl _]]. eauto.
Qed.

Lemma lazy_to_bel_none (t : list Z) : Forall (fun c => c <> 7) t -> lazy_to_bel t = None.
Proof.
  induction 1 as [|c r Hc Hr IH]; simpl; [reflexivity|].
  destruct (Z.eqb_spec c 7); [contradiction|].
  destruct (c =? 10); [reflexivity | exact IH].
Qed.

Lemma shell_mark_match_none (l : list Z) :
  Forall (fun c => c <> 7) l -> shell_mark_match l = None.
Proof.
  intros Hl. unfold shell_mark_match.
  destruct l as [|a [|b [|c [|d [|x [|e r]]]]]]; try reflexivity.
  destruct (_ && _); [|reflexivity].
  apply lazy_to_bel_none.
  do 6 (apply Forall_inv_tail in Hl). exact Hl.
Qed.

Lemma ansi_match_none (l : list Z) : Forall (fun b => b <> 27) l -> ansi_match l = None.
Proof.
  intros Hl. destruct l as [|e [|c r]]; try reflexivity.
  simpl. apply Forall_inv in Hl. destruct (Z.eqb_spec e 27); [contradiction | reflexivity].
Qed.

Lemma replace_crlf_cons (c : Z) (r : list Z) :
  replace_crlf (c :: r) =
  if c =? 13 then
    match r with
    | d :: r' => if d =? 10 then 10 :: replace_crlf r' else c :: replace_crlf r
    | [] => [c]
    end
  else c :: replace_crlf r.
Proof. reflexivity. Qed.

Lemma line_breaks_cons (c : Z) (r : list Z) :
  line_breaks (c :: r) =
  if c =? 13 then
    match r with
    | d :: r' => if d =? 10 then S (line_breaks r') else S (line_breaks r)
    | [] => 1%nat
    end
  else if c =? 10 then S (line_breaks r) else line_breaks r.
Proof. reflexivity. Qed.

Lemma count_lf_cons (c : Z) (r : list Z) :
  count_occ Z.eq_dec (c :: r) 10
  = if c =? 10 then S (count_occ Z.eq_dec r 10) else count_occ Z.eq_dec r 10.
Proof.
  simpl. destruct (Z.eq_dec c 10) as [->|H]; [reflexivity|].
  rewrite (proj2 (Z.eqb_neq c 10) H). reflexivity.
Qed.

Lemma replace_lines_count (t : list Z) :
  count_occ Z.eq_dec (replace_cr (replace_crlf t)) 10 = line_breaks t.
Proof.
  remember (length t) as n eqn:Hn. assert (Hle : (length t <= n)%nat) by lia.
  clear Hn. revert t Hle. induction n as [|n IH]; intros t Hle.
  { destruct t; [reflexivity | simpl in Hle; lia]. }
  destruct t as [|c r]; [reflexivity|]. simpl in Hle.
  rewrite replace_crlf_cons, line_breaks_cons.
  destruct (Z.eqb_spec c 13) as [->|H13].
  - destruct r as [|d r']; [reflexivity|]. simpl in Hle.
    destruct (Z.eqb_spec d 10) as [->|H10].
    + unfold replace_cr. rewrite map_cons. fold (replace_cr (replace_crlf r')).
      rewrite count_lf_cons, IH by lia. reflexivity.
    + unfold replace_cr. rewrite map_cons. fold (replace_cr (replace_crlf (d :: r'))).
      rewrite count_lf_cons, IH by (simpl; lia). reflexivity.
  - unfold replace_cr. rewrite map_cons. fold (replace_cr (replace_crlf r)).
    rewrite (proj2 (Z.eqb_neq c 13) H13), count_lf_cons, IH by lia.
    reflexivity.
Qed.

Lemma replace_lines_incl (t : list Z) (c : Z) :
  In c (replace_cr (replace_crlf t)) -> In c t \/ c = 10.
Proof.
  unfold replace_cr. intros Hin. apply in_map_iff in Hin as [c' [Hc Hin]].
  assert (Hsub : forall t c', In c' (replace_crlf t) -> In c' t \/ c' = 10).
  { clear. intros t.
    remember (length t) as n eqn:Hn. assert (Hle : (length t <= n)%nat) by lia.
    clear Hn. revert t Hle. induction n as [|n IH]; intros t Hle c' Hin.
    - destruct t; [destruct Hin | simpl in Hle; lia].
    - destruct t as [|x r]; [destruct Hin|]. simpl in Hle.
      rewrite replace_crlf_cons in Hin.
      destruct (x =? 13).
      + destruct r as [|y r'].
        * left. exact Hin.
        * destruct (y =? 10).
          -- destruct Hin as [H | H]; [right; lia|].
             destruct (IH r' ltac:(simpl in *; lia) c' H) as [H1 | H1];
               [left; right; right; exact H1 | right; exact H1].
          -- destruct Hin as [H | H]; [left; left; exact H|].
             destruct (IH (y :: r') ltac:(simpl in *; lia) c' H) as [H1 | H1];
               [left; right; exact H1 | right; exact H1].
      + destruct Hin as [H | H]; [left; left; exact H|].
        destruct (IH r ltac:(lia) c' H) as [H1 | H1];
          [left; right; exact H1 | right; exact H1]. }
  destruct (Z.eqb_spec c' 13) as [H13|H13]; [right; lia|].
  subst c. exact (Hsub t c' Hin).
Qed.

Lemma sanitize_valid (x : list Z) (c : Z) :
  In c (sanitize x) -> valid_scalar c = true.
Proof.
  destruct x as [|b r]; [intros []|].
  unfold sanitize, sanitize_text, re_sub. intros Hin.
  apply filter_In in Hin as [Hin _].
  apply re_sub_fuel_incl in Hin; [|exact shell_mark_match_suffix].
  destruct (replace_lines_incl _ _ Hin) as [H | ->]; [|reflexivity].
  exact (proj1 (Forall_forall _ _) (decode_utf8_valid _) c H).
Qed.

Lemma decode_encode (t y : list Z) :
  Forall (fun c => valid_scalar c = true) t -> encode_utf8 t = Some y ->
  decode_utf8 y = t.
Proof.
  intros Hv. revert y. induction Hv as [|c t Hc Ht IH]; intros y; simpl.
  - intros [= <-]. reflexivity.
  - destruct (encode_char c) as [b|] eqn:Hb; [|discriminate].
    destruct (encode_utf8 t) as [bs|] eqn:Hbs; [|discriminate].
    intros [= <-]. rewrite (decode_encode_char c b bs Hc Hb), (IH bs eq_refl).
    reflexivity.
Qed.

Lemma encode_no_esc (t y : list Z) :
  Forall (fun c => keep_char c = true) t -> encode_utf8 t = Some y ->
  Forall (fun b => b <> 27) y.
Proof.
  intros Hk. revert y. induction Hk as [|c t Hc Ht IH]; intros y; simpl.
  - intros [= <-]. constructor.
  - destruct (encode_char c) as [b|] eqn:Hb; [|discriminate].
    destruct (encode_utf8 t) as [bs|] eqn:Hbs; [|discriminate].
    intros [= <-]. apply Forall_app. split; [|exact (IH bs eq_refl)].
    unfold keep_char in Hc. unfold encode_char in Hb.
    destruct (in_rng 0 127 c) eqn:A1.
    { injection Hb as <-. constructor; [|constructor].
      apply orb_true_iff in Hc as [Hc | Hc]; [apply orb_true_iff in Hc as [Hc | Hc]|];
        [apply Z.leb_le in Hc | apply Z.eqb_eq in Hc | apply Z.eqb_eq in Hc]; lia. }
    apply in_rng_false in A1.
    destruct (in_rng 128 2047 c) eqn:A2.
    { assert (b = [192 + c / 64; 128 + c mod 64]) as -> by congruence.
      apply in_rng_true in A2. Z.to_euclidean_division_equations.
      repeat constructor; lia. }
    destruct (in_rng 55296 57343 c); [discriminate|].
    destruct (in_rng 2048 65535 c) eqn:A3.
    { assert (b = [224 + c / 4096; 128 + (c / 64) mod 64; 128 + c mod 64])
        as -> by congruence.
      apply in_rng_true in A3. Z.to_euclidean_division_equations.
      repeat constructor; lia. }
    destruct (in_rng 65536 1114111 c) eqn:A4; [|discriminate].
    assert (b = [240 + c / 262144; 128 + (c / 4096) mod 64;
                 128 + (c / 64) mod 64; 128 + c mod 64]) as -> by congruence.
    apply in_rng_true in A4. Z.to_euclidean_division_equations.
    repeat constructor; lia.
Qed.

Lemma keep_char_not_cr_bel (c : Z) : keep_char c = true -> c <> 13 /\ c <> 7.
Proof.
  unfold keep_char. intros H.
  apply orb_true_iff in H as [H | H]; [apply orb_true_iff in H as [H | H]|];
    [apply Z.leb_le in H | apply Z.eqb_eq in H | apply Z.eqb_eq in H]; lia.
Qed.

Lemma sanitize_text_id (t : list Z) :
  Forall (fun c => keep_char c = true) t -> sanitize_text t = t.
Proof.
  intros Hk.
  assert (Hcr : Forall (fun c => c <> 13) t).
  { eapply Forall_impl; [|exact Hk]. intros c Hc. apply keep_char_not_cr_bel, Hc. }
  assert (Hbel : Forall (fun c => c <> 7) t).
  { eapply Forall_impl; [|exact Hk]. intros c Hc. apply keep_char_not_cr_bel, Hc. }
  unfold sanitize_text, re_sub.
  assert (H1 : replace_crlf t = t).
  { clear Hk Hbel. induction Hcr as [|c r Hc Hr IH]; [reflexivity|].
    rewrite replace_crlf_cons, (proj2 (Z.eqb_neq c 13) Hc), IH. reflexivity. }
  assert (H2 : replace_cr t = t).
  { clear Hk Hbel H1. unfold replace_cr.
    induction Hcr as [|c r Hc Hr IH]; [reflexivity|].
    rewrite map_cons, (proj2 (Z.eqb_neq c 13) Hc), IH. reflexivity. }
  rewrite H1, H2.
  rewrite (re_sub_fuel_id shell_mark_match (fun c => c <> 7) shell_mark_match_none _ _ Hbel).
  clear Hcr Hbel H1 H2.
  induction Hk as [|c r Hc Hr IH]; [reflexivity|].
  simpl. rewrite Hc, IH. reflexivity.
Qed.

Lemma count_lf_filter_keep (l : list Z) :
  count_occ Z.eq_dec (filter keep_char l) 10 = count_occ Z.eq_dec l 10.
Proof.
  induction l as [|c r IH]; [reflexivity|].
  simpl filter. destruct (keep_char c) eqn:Hk.
  - rewrite !count_lf_cons, IH. reflexivity.
  - rewrite count_lf_cons, IH.
    destruct (Z.eqb_spec c 10) as [->|]; [discriminate | reflexivity].
Qed.

(** ** C6 *)

(** Claim C6: sanitize is idempotent on its own output: the text it
    returns can be encoded ([str.encode()] does not raise), and sanitizing
    those bytes gives the same text back. *)
Theorem sanitize_idempotent (x : list Z) :
  exists y, encode_utf8 (sanitize x) = Some y /\ sanitize y = sanitize x.
Proof.
  assert (Hv : Forall (fun c => valid_scalar c = true) (sanitize x)).
  { apply Forall_forall. intros c. apply sanitize_valid. }
  assert (Hk : Forall (fun c => keep_char c = true) (sanitize x)).
  { apply Forall_forall. intros c. apply sanitize_chars. }
  destruct (encode_utf8_valid _ Hv) as [y Hy].
  exists y. split; [exact Hy|].
  pose proof (decode_encode _ _ Hv Hy) as Hd.
  pose proof (encode_no_esc _ _ Hk Hy) as He.
  destruct y as [|b r].
  - rewrite <- Hd. reflexivity.
  - change (sanitize (b :: r))
      with (sanitize_text (decode_utf8 (re_sub ansi_match (b :: r)))).
    unfold re_sub at 1.
    rewrite (re_sub_fuel_id ansi_match (fun b => b <> 27) ansi_match_none _ _ He), Hd.
    apply sanitize_text_id. exact Hk.
Qed.

(** ** C8 *)

(** Claim C8: in sanitize, CR LF and a bare CR of the decoded text each
    become exactly one linefeed: the output has as many linefeeds as the
    decoded text has line breaks (CR LF counting once, a bare CR once, a
    bare LF once), and no carriage return is left. *)
Theorem sanitize_line_endings (x : list Z) :
  count_occ Z.eq_dec (sanitize x) 10 = line_breaks (decode_utf8 (re_sub ansi_match x))
  /\ ~ In 13 (sanitize x).
Proof.
  split.
  - destruct x as [|b r]; [reflexivity|].
    change (sanitize (b :: r))
      with (sanitize_text (decode_utf8 (re_sub ansi_match (b :: r)))).
    unfold sanitize_text, re_sub at 1.
    rewrite count_lf_filter_keep.
    rewrite (re_sub_fuel_count_lf shell_mark_match shell_mark_match_no_lf).
    apply replace_lines_count.
  - intros H. apply sanitize_chars in H. discriminate H.
Qed.

(** * Further properties of the session code *)

(** ** Reader loop *)

Lemma py_slice_neg (k : Z) (l : list Z) :
  0 < k -> py_slice_from (- k) l = skipn (length l - Z.to_nat k) l.
Proof.
  intros Hk. unfold py_slice_from.
  replace (- k <? 0) with true by (symmetry; apply Z.ltb_lt; lia).
  f_equal. destruct (Nat.le_gt_cases (length l) (Z.to_nat k)).
  - rewrite Z.max_l by lia. lia.
  - rewrite Z.max_r by lia. lia.
Qed.

Lemma reader_chunk_history_slice (s : Session) (chunk : list Z) :
  0 < max_history s ->
  history (reader_chunk s chunk) = py_slice_from (- max_history s) (history s ++ chunk).
Proof.
  intros Hk. unfold reader_chunk. simpl.
  destruct (Z.of_nat (length (history s ++ chunk)) >? max_history s) eqn:E;
    [reflexivity|].
  rewrite Z.gtb_ltb in E. apply Z.ltb_ge in E.
  rewrite py_slice_neg by exact Hk.
  replace (length (history s ++ chunk) - Z.to_nat (max_history s))%nat with 0%nat
    by lia.
  reflexivity.
Qed.

Lemma skipn_tail_app (k : nat) (a b : list Z) :
  skipn (length (skipn (length a - k) a ++ b) - k) (skipn (length a - k) a ++ b)
  = skipn (length (a ++ b) - k) (a ++ b).
Proof.
  destruct (Nat.le_gt_cases (length a) k) as [H|H].
  - replace (length a - k)%nat with 0%nat by lia. reflexivity.
  - rewrite !length_app, length_skipn, !skipn_app, skipn_skipn, length_skipn.
    f_equal; f_equal; lia.
Qed.

Lemma reader_chunk_fields (s : Session) (chunk : list Z) :
  markers (reader_chunk s chunk) = markers s
  /\ max_history (reader_chunk s chunk) = max_history s
  /\ buffer (reader_chunk s chunk) = buffer s ++ chunk.
Proof. repeat split. Qed.

(** The reader loop only appends to the consumable buffer: after any
    sequence of chunks it is the old buffer followed by every chunk in
    order. *)
Theorem reader_chunks_buffer (s : Session) (chunks : list (list Z)) :
  buffer (reader_chunks s chunks) = buffer s ++ concat chunks.
Proof.
  unfold reader_chunks. revert s.
  induction chunks as [|c cs IH]; intros s; simpl.
  - rewrite app_nil_r. reflexivity.
  - rewrite IH. simpl. rewrite app_assoc. reflexivity.
Qed.

(** With a positive cap, and a history within the cap to start with, the
    history after any sequence of chunks is exactly the last [max_history]
    bytes of the old history followed by all chunks (all of it when that is
    shorter). *)
Theorem reader_chunks_history (s : Session) (chunks : list (list Z)) :
  0 < max_history s ->
  Z.of_nat (length (history s)) <= max_history s ->
  history (reader_chunks s chunks)
  = py_slice_from (- max_history s) (history s ++ concat chunks).
Proof.
  unfold reader_chunks. revert s.
  induction chunks as [|c cs IH]; intros s Hk Hlen; simpl.
  - rewrite app_nil_r, py_slice_neg by exact Hk.
    replace (length (history s) - Z.to_nat (max_history s))%nat with 0%nat by lia.
    reflexivity.
  - rewrite IH.
    + simpl max_history. rewrite reader_chunk_history_slice by exact Hk.
      rewrite (py_slice_neg _ (history s ++ c)) by exact Hk.
      rewrite (py_slice_neg _ (skipn _ (history s ++ c) ++ concat cs)) by exact Hk.
      rewrite (py_slice_neg _ (history s ++ c ++ concat cs)) by exact Hk.
      rewrite app_assoc. apply skipn_tail_app.
    + exact Hk.
    + exact (reader_chunk_history_bounded s c Hk).
Qed.

Lemma reader_chunks_history_witness :
  let s := mkSession [] [] true (Some false) default_markers 3 (Some 5) [] in
  0 < max_history s /\ Z.of_nat (length (history s)) <= max_history s
  /\ history (reader_chunks s [[1; 2]; [3; 4; 5]])
     = py_slice_from (- max_history s) (history s ++ concat [[1; 2]; [3; 4; 5]]).
Proof.
  intros s. split; [reflexivity|]. split; [simpl; lia|].
  apply reader_chunks_history; simpl; lia.
Defined.

(** ** The ready-wait loop *)

Lemma apply_events_markers (s : Session) (evs : list reader_event) :
  markers (apply_events s evs) = markers s.
Proof.
  unfold apply_events. revert s.
  induction evs as [|ev evs IH]; intros s; simpl; [reflexivity|].
  rewrite IH. destruct ev; reflexivity.
Qed.

(** Every outcome of the loop is the outcome of one check, made on a state
    whose buffer extends the initial one and whose markers are unchanged. *)
Lemma rur_loop_final (deadline now : Z) (s : Session) trace r s' n :
  rur_loop deadline now s trace = Some (r, s', n) ->
  exists sf now', rur_check deadline now' sf = Done r s'
    /\ (exists extra, buffer sf = buffer s ++ extra)
    /\ markers sf = markers s.
Proof.
  revert now s n. induction trace as [|[evs now1] tr IH]; intros now s n; simpl.
  - destruct (rur_check deadline now s) as [r0 s0|s0] eqn:Hc; [|discriminate].
    intros [= <- <- <-]. exists s, now. split; [exact Hc|].
    split; [exists []; symmetry; apply app_nil_r | reflexivity].
  - destruct (rur_check deadline now s) as [r0 s0|s0] eqn:Hc.
    + intros [= <- <- <-]. exists s, now. split; [exact Hc|].
      split; [exists []; symmetry; apply app_nil_r | reflexivity].
    + assert (Hs0 : s0 = s).
      { unfold rur_check in Hc.
        destruct (find _ _); [discriminate|].
        destruct (deadline - now <=? 0); [discriminate|].
        destruct (negb (is_alive s)); [discriminate|]. congruence. }
      subst s0.
      destruct (rur_loop deadline now1 (apply_events s evs) tr) as [[[r1 s1] k]|] eqn:Hl;
        [|discriminate].
      intros [= <- <- <-].
      destruct (IH now1 (apply_events s evs) k Hl) as [sf [now' [Hf [[e1 He1] Hm]]]].
      exists sf, now'. split; [exact Hf|]. split.
      * destruct (apply_events_buffer s evs) as [e2 He2].
        exists (e2 ++ e1). rewrite He1, He2, app_assoc. reflexivity.
      * rewrite Hm. apply apply_events_markers.
Qed.

(** A successful [read_until_ready] returns the sanitized text of the
    initial buffer followed by what the reader appended meanwhile; that text
    contains one of the session's markers, and the buffer is left empty. *)
Theorem read_until_ready_ok (timeout_ms t0 t1 : Z) (s : Session) trace text s' n :
  read_until_ready timeout_ms t0 t1 s trace = Some (Ok text, s', n) ->
  buffer s' = []
  /\ (exists extra, text = sanitize (buffer s ++ extra))
  /\ (exists m, In m (markers s) /\ is_infix m text = true).
Proof.
  unfold read_until_ready. intros Hl.
  destruct (rur_loop_final _ _ _ _ _ _ _ Hl) as [sf [now' [Hc [[extra He] Hm]]]].
  unfold rur_check in Hc.
  destruct (find (fun m => is_infix m (sanitize (buffer sf))) (markers sf)) as [m|] eqn:Hf.
  - injection Hc as <- <-. split; [reflexivity|]. split.
    + exists extra. rewrite He. reflexivity.
    + apply find_some in Hf as [Hin Hinf]. exists m. rewrite <- Hm. split; assumption.
  - destruct (_ <=? 0); [discriminate|].
    destruct (negb (is_alive sf)); discriminate.
Qed.

Lemma read_until_ready_ok_witness :
  let s := set_buffer (started_session 5) [104; 105] in
  read_until_ready 10000 0 1 s [([ReaderChunk [10; 36; 32]], 2)]
    = Some (Ok [104; 105; 10; 36; 32], set_buffer (reader_chunk s [10; 36; 32]) [], 1%nat)
  /\ buffer (set_buffer (reader_chunk s [10; 36; 32]) []) = []
  /\ (exists extra, [104; 105; 10; 36; 32] = sanitize (buffer s ++ extra))
  /\ (exists m, In m (markers s) /\ is_infix m [104; 105; 10; 36; 32] = true).
Proof.
  intros s.
  assert (H : read_until_ready 10000 0 1 s [([ReaderChunk [10; 36; 32]], 2)]
              = Some (Ok [104; 105; 10; 36; 32],
                      set_buffer (reader_chunk s [10; 36; 32]) [], 1%nat))
    by (vm_compute; reflexivity).
  split; [exact H|]. exact (read_until_ready_ok _ _ _ _ _ _ _ _ H).
Defined.

(** [read_until_ready] raises "Subprocess died" only at a check where no
    marker matches and the session is not alive. *)
Theorem read_until_ready_died (timeout_ms t0 t1 : Z) (s : Session) trace msg s' n :
  read_until_ready timeout_ms t0 t1 s trace = Some (Err (PtyError msg), s', n) ->
  msg = "Subprocess died"%string
  /\ is_alive s' = false
  /\ find (fun m => is_infix m (sanitize (buffer s'))) (markers s') = None
  /\ (exists extra, buffer s' = buffer s ++ extra).
Proof.
  unfold read_until_ready. intros Hl.
  destruct (rur_loop_final _ _ _ _ _ _ _ Hl) as [sf [now' [Hc [[extra He] Hm]]]].
  unfold rur_check in Hc.
  destruct (find (fun m => is_infix m (sanitize (buffer sf))) (markers sf)) eqn:Hf;
    [discriminate|].
  destruct (_ <=? 0); [discriminate|].
  destruct (is_alive sf) eqn:Ha; [discriminate|].
  injection Hc as <- <-. repeat split; [assumption | assumption |].
  exists extra. exact He.
Qed.

Lemma read_until_ready_died_witness :
  let s := set_running (started_session 5) false in
  read_until_ready 10000 0 1 s [] = Some (Err (PtyError "Subprocess died"), s, 0%nat)
  /\ "Subprocess died"%string = "Subprocess died"%string
  /\ is_alive s = false
  /\ find (fun m => is_infix m (sanitize (buffer s))) (markers s) = None
  /\ (exists extra, buffer s = buffer s ++ extra).
Proof.
  intros s.
  assert (H : read_until_ready 10000 0 1 s [] = Some (Err (PtyError "Subprocess died"), s, 0%nat))
    by (vm_compute; reflexivity).
  split; [exact H|]. exact (read_until_ready_died _ _ _ _ _ _ _ _ H).
Defined.

(** ** Sanitizer: length, round trip, removal of sequences *)

Lemma decode_utf8_length (bs : list Z) : (length (decode_utf8 bs) <= length bs)%nat.
Proof.
  enough (Hn : forall n bs', (length bs' <= n)%nat ->
            (length (decode_utf8 bs') <= length bs')%nat) by (apply (Hn (length bs)); lia).
  clear bs. intros n. induction n as [|n IH]; intros bs Hle.
  - destruct bs; [reflexivity | simpl in Hle; lia].
  - destruct bs as [|b0 r0]; [reflexivity|]. simpl in Hle.
    cbn [decode_utf8]. unfold lo3, hi3, lo4, hi4, is_cont, REPLACEMENT.
    repeat (rng_step || match goal with
                        | |- context [match ?l with [] => _ | _ :: _ => _ end] =>
                            destruct l
                        end).
    all: simpl in Hle.
    all: first
      [ match goal with
        | |- context [decode_utf8 ?r] =>
            assert (length (decode_utf8 r) <= length r)%nat
              by (apply IH; cbn [length] in *; lia)
        end; cbn [length] in *; lia
      | cbn [length] in *; lia ].
Qed.

Lemma re_sub_fuel_length (m : list Z -> option (list Z))
    (m_suffix : forall l rest, m l = Some rest -> exists pre, l = pre ++ rest)
    (f : nat) (l : list Z) :
  (length (re_sub_fuel m f l) <= length l)%nat.
Proof.
  revert l. induction f as [|f IH]; intros l; simpl; [lia|].
  destruct l as [|x r]; [simpl; lia|].
  destruct (m (x :: r)) as [rest|] eqn:Hm.
  - destruct (m_suffix _ _ Hm) as [pre Hpre].
    specialize (IH rest). rewrite Hpre, length_app. lia.
  - simpl. specialize (IH r). lia.
Qed.

Lemma skip_while_suffix (p : Z -> bool) (l : list Z) :
  exists pre, l = pre ++ skip_while p l.
Proof.
  destruct (skip_while_split p l) as [pre [H _]]. eauto.
Qed.

Lemma osc_body_suffix (l rest : list Z) :
  osc_body l = Some rest -> exists pre, l = pre ++ rest /\ pre <> [].
Proof.
  induction l as [|b r IH]; simpl; [discriminate|].
  destruct (b =? 7).
  - intros [= <-]. exists [b]. split; [reflexivity | discriminate].
  - destruct (b =? 27).
    + destruct r as [|c r'] eqn:Hr; [discriminate|].
      destruct (c =? 92).
      * intros [= <-]. exists [b; c]. split; [reflexivity | discriminate].
      * intros H. destruct (IH H) as [pre [Hp _]].
        exists (b :: pre). split; [rewrite Hp; reflexivity | discriminate].
    + intros H. destruct (IH H) as [pre [Hp _]].
      exists (b :: pre). split; [rewrite Hp; reflexivity | discriminate].
Qed.

(** A match of [ANSI_RE] consumes at least two bytes. *)
Lemma ansi_match_suffix (l rest : list Z) :
  ansi_match l = Some rest -> exists pre, l = pre ++ rest /\ (2 <= length pre)%nat.
Proof.
  unfold ansi_match. destruct l as [|e [|c r]]; try discriminate.
  destruct (e =? 27); [|discriminate].
  destruct (in_rng 64 90 c || in_rng 92 95 c).
  { intros [= <-]. exists [e; c]. split; [reflexivity | simpl; lia]. }
  destruct (c =? 91).
  { destruct (skip_while_suffix (in_rng 48 63) r) as [p1 H1].
    destruct (skip_while_suffix (in_rng 32 47) (skip_while (in_rng 48 63) r)) as [p2 H2].
    destruct (skip_while (in_rng 32 47) (skip_while (in_rng 48 63) r)) as [|f r3];
      [discriminate|].
    destruct (in_rng 64 126 f); [|discriminate].
    intros [= <-]. exists ([e; c] ++ p1 ++ p2 ++ [f]). split; [|rewrite !length_app; simpl; lia].
    rewrite H1 at 1. rewrite H2. rewrite <- !app_assoc. reflexivity. }
  destruct (c =? 93); [|discriminate].
  destruct (skip_while_suffix (in_rng 48 57) r) as [p1 H1].
  destruct (skip_while (in_rng 48 57) r) as [|s0 r2]; [discriminate|].
  destruct (s0 =? 59); [|discriminate].
  intros Ho. destruct (osc_body_suffix _ _ Ho) as [p2 [H2 _]].
  exists ([e; c] ++ p1 ++ [s0] ++ p2). split; [|rewrite !length_app; simpl; lia].
  rewrite H1, H2. rewrite <- !app_assoc. reflexivity.
Qed.

Lemma ansi_match_suffix' (l rest : list Z) :
  ansi_match l = Some rest -> exists pre, l = pre ++ rest.
Proof.
  intros H. destruct (ansi_match_suffix _ _ H) as [pre [Hp _]]. eauto.
Qed.

Lemma replace_crlf_length (t : list Z) : (length (replace_crlf t) <= length t)%nat.
Proof.
  enough (Hn : forall n t', (length t' <= n)%nat ->
            (length (replace_crlf t') <= length t')%nat) by (apply (Hn (length t)); lia).
  clear t. intros n. induction n as [|n IH]; intros t Hle.
  - destruct t; [reflexivity | simpl in Hle; lia].
  - destruct t as [|c r]; [reflexivity|]. simpl in Hle.
    rewrite replace_crlf_cons.
    destruct (c =? 13).
    + destruct r as [|d r']; [simpl; lia|].
      destruct (d =? 10).
      * simpl in *. specialize (IH r' ltac:(lia)). lia.
      * simpl length at 1. specialize (IH (d :: r') ltac:(simpl in *; lia)). simpl in *. lia.
    + simpl length at 1. specialize (IH r ltac:(lia)). simpl. lia.
Qed.

Lemma sanitize_eq (x : list Z) :
  sanitize x = sanitize_text (decode_utf8 (re_sub ansi_match x)).
Proof. destruct x; reflexivity. Qed.

Lemma sanitize_text_length (t : list Z) : (length (sanitize_text t) <= length t)%nat.
Proof.
  unfold sanitize_text, re_sub.
  set (u := replace_cr (replace_crlf t)).
  pose proof (filter_length_le keep_char (re_sub_fuel shell_mark_match (length u) u)).
  pose proof (re_sub_fuel_length shell_mark_match shell_mark_match_suffix (length u) u).
  pose proof (replace_crlf_length t).
  assert (length u = length (replace_crlf t)) by (unfold u, replace_cr; apply length_map).
  lia.
Qed.

(** The sanitized text never has more characters than the input has
    bytes. *)
Theorem sanitize_length_le (x : list Z) : (length (sanitize x) <= length x)%nat.
Proof.
  rewrite sanitize_eq.
  pose proof (sanitize_text_length (decode_utf8 (re_sub ansi_match x))).
  pose proof (decode_utf8_length (re_sub ansi_match x)).
  pose proof (re_sub_fuel_length ansi_match ansi_match_suffix' (length x) x).
  unfold re_sub in *. lia.
Qed.

(** Text that is all valid code points and only characters the sanitizer
    keeps is encoded without error, and sanitizing those bytes gives the
    text back: the sanitizer does not alter clean text. *)
Theorem sanitize_encode_roundtrip (t : list Z) :
  Forall (fun c => valid_scalar c = true) t ->
  Forall (fun c => keep_char c = true) t ->
  exists y, encode_utf8 t = Some y /\ sanitize y = t.
Proof.
  intros Hv Hk.
  destruct (encode_utf8_valid _ Hv) as [y Hy].
  exists y. split; [exact Hy|].
  pose proof (decode_encode _ _ Hv Hy) as Hd.
  pose proof (encode_no_esc _ _ Hk Hy) as He.
  rewrite sanitize_eq. unfold re_sub.
  rewrite (re_sub_fuel_id ansi_match (fun b => b <> 27) ansi_match_none _ _ He), Hd.
  apply sanitize_text_id. exact Hk.
Qed.

Lemma sanitize_encode_roundtrip_witness :
  Forall (fun c => valid_scalar c = true) [108; 115; 9; 233; 10] /\
  Forall (fun c => keep_char c = true) [108; 115; 9; 233; 10] /\
  exists y, encode_utf8 [108; 115; 9; 233; 10] = Some y /\
            sanitize y = [108; 115; 9; 233; 10].
Proof.
  assert (H1 : Forall (fun c => valid_scalar c = true) [108; 115; 9; 233; 10])
    by repeat constructor.
  assert (H2 : Forall (fun c => keep_char c = true) [108; 115; 9; 233; 10])
    by repeat constructor.
  split; [exact H1|]. split; [exact H2|].
  apply (sanitize_encode_roundtrip [108; 115; 9; 233; 10] H1 H2).
Defined.

Lemma re_sub_fuel_enough (m : list Z -> option (list Z))
    (m_short : forall l r, m l = Some r -> (length r < length l)%nat)
    (f1 : nat) : forall f2 l, (length l <= f1)%nat -> (length l <= f2)%nat ->
  re_sub_fuel m f1 l = re_sub_fuel m f2 l.
Proof.
  induction f1 as [|f1 IH]; intros f2 l H1 H2.
  - destruct l; [destruct f2; reflexivity | simpl in H1; lia].
  - destruct f2 as [|f2].
    { destruct l; [reflexivity | simpl in H2; lia]. }
    cbn [re_sub_fuel]. destruct l as [|x r]; [reflexivity|].
    destruct (m (x :: r)) as [rest|] eqn:Hm.
    + pose proof (m_short _ _ Hm). simpl in *. apply IH; lia.
    + f_equal. simpl in *. apply IH; lia.
Qed.

(** When the pattern matches at the head, [re.sub] drops the match and
    goes on with what follows. *)
Lemma re_sub_head (m : list Z -> option (list Z))
    (m_short : forall l r, m l = Some r -> (length r < length l)%nat)
    (l rest : list Z) :
  m l = Some rest -> re_sub m l = re_sub m rest.
Proof.
  intros Hm. pose proof (m_short _ _ Hm) as Hlt.
  destruct l as [|x r]; [simpl in Hlt; lia|].
  unfold re_sub. cbn [length re_sub_fuel]. rewrite Hm.
  apply re_sub_fuel_enough; [exact m_short | simpl in Hlt; lia | lia].
Qed.

Lemma ansi_match_short (l r : list Z) :
  ansi_match l = Some r -> (length r < length l)%nat.
Proof.
  intros H. destruct (ansi_match_suffix _ _ H) as [pre [-> Hp]].
  rewrite length_app. lia.
Qed.

Lemma lazy_to_bel_short (t r : list Z) :
  lazy_to_bel t = Some r -> (length r < length t)%nat.
Proof.
  induction t as [|c t IH]; simpl; [discriminate|].
  destruct (c =? 7); [intros [= <-]; lia|].
  destruct (c =? 10); [discriminate|]. intros H. specialize (IH H). lia.
Qed.

Lemma shell_mark_match_short (l r : list Z) :
  shell_mark_match l = Some r -> (length r < length l)%nat.
Proof.
  unfold shell_mark_match.
  destruct l as [|a [|b [|c [|d [|x [|e t]]]]]]; try discriminate.
  destruct (_ && _); [|discriminate].
  intros H. apply lazy_to_bel_short in H. simpl. lia.
Qed.

Lemma ansi_match_head_none (x : Z) (r : list Z) : x <> 27 -> ansi_match (x :: r) = None.
Proof.
  intros Hx. destruct r as [|c r]; [reflexivity|].
  unfold ansi_match. destruct (Z.eqb_spec x 27); [contradiction | reflexivity].
Qed.

Lemma re_sub_ansi_noesc (pre l : list Z) :
  Forall (fun b => b <> 27) pre ->
  re_sub ansi_match (pre ++ l) = pre ++ re_sub ansi_match l.
Proof.
  induction pre as [|x pre IH]; intros H; [reflexivity|].
  inversion H as [|? ? Hx Hpre]; subst.
  specialize (IH Hpre). unfold re_sub in *.
  cbn [app length re_sub_fuel].
  rewrite (ansi_match_head_none x (pre ++ l) Hx).
  cbv beta iota. f_equal. exact IH.
Qed.

Lemma skip_while_all (p : Z -> bool) (a l : list Z) :
  Forall (fun b => p b = true) a -> skip_while p (a ++ l) = skip_while p l.
Proof.
  induction 1 as [|b a Hb _ IH]; [reflexivity|].
  simpl. rewrite Hb. exact IH.
Qed.

Lemma skip_while_stop (p : Z -> bool) (x : Z) (r : list Z) :
  p x = false -> skip_while p (x :: r) = x :: r.
Proof. intros H. simpl. rewrite H. reflexivity. Qed.

Lemma ansi_match_csi (ps is post : list Z) (f : Z) :
  Forall (fun b => 48 <= b <= 63) ps -> Forall (fun b => 32 <= b <= 47) is ->
  64 <= f <= 126 ->
  ansi_match (27 :: 91 :: ps ++ is ++ f :: post) = Some post.
Proof.
  intros Hps His Hf. unfold ansi_match.
  replace (27 =? 27) with true by reflexivity.
  replace (in_rng 64 90 91 || in_rng 92 95 91) with false by reflexivity.
  replace (91 =? 91) with true by reflexivity.
  rewrite (skip_while_all (in_rng 48 63) ps).
  2:{ eapply Forall_impl; [|exact Hps]. intros b Hb. apply in_rng_true. exact Hb. }
  assert (E : skip_while (in_rng 48 63) (is ++ f :: post) = is ++ f :: post).
  { destruct is as [|i is'].
    - apply skip_while_stop. apply in_rng_false. lia.
    - apply skip_while_stop. apply in_rng_false. inversion His. lia. }
  rewrite E, (skip_while_all (in_rng 32 47) is).
  2:{ eapply Forall_impl; [|exact His]. intros b Hb. apply in_rng_true. exact Hb. }
  rewrite skip_while_stop by (apply in_rng_false; lia).
  rewrite (proj2 (in_rng_true 64 126 f) Hf). reflexivity.
Qed.

(** A complete CSI sequence ([ESC [], parameter bytes, intermediate bytes,
    final byte) that follows escape-free output is removed: sanitizing the
    output with the sequence gives the same text as without it. *)
Theorem sanitize_drops_csi (pre ps is post : list Z) (f : Z) :
  Forall (fun b => b <> 27) pre ->
  Forall (fun b => 48 <= b <= 63) ps -> Forall (fun b => 32 <= b <= 47) is ->
  64 <= f <= 126 ->
  sanitize (pre ++ [27; 91] ++ ps ++ is ++ f :: post) = sanitize (pre ++ post).
Proof.
  intros Hpre Hps His Hf. rewrite !sanitize_eq.
  rewrite (re_sub_ansi_noesc pre post Hpre), (re_sub_ansi_noesc pre _ Hpre).
  rewrite (re_sub_head ansi_match ansi_match_short _ post); [reflexivity|].
  apply ansi_match_csi; assumption.
Qed.

Lemma sanitize_drops_csi_witness :
  Forall (fun b => b <> 27) [104; 105] /\
  Forall (fun b => 48 <= b <= 63) [51; 49] /\ Forall (fun b => 32 <= b <= 47) [] /\
  64 <= 109 <= 126 /\
  sanitize ([104; 105] ++ [27; 91] ++ [51; 49] ++ [] ++ 109 :: [10])
  = sanitize ([104; 105] ++ [10]).
Proof.
  assert (H1 : Forall (fun b => b <> 27) [104; 105])
    by (repeat (constructor; [lia|]); constructor).
  assert (H2 : Forall (fun b => 48 <= b <= 63) [51; 49])
    by (repeat (constructor; [lia|]); constructor).
  assert (H3 : Forall (fun b => 32 <= b <= 47) ([] : list Z)) by constructor.
  split; [exact H1|]. split; [exact H2|]. split; [exact H3|]. split; [lia|].
  apply (sanitize_drops_csi [104; 105] [51; 49] [] [10] 109 H1 H2 H3). lia.
Defined.

Lemma decode_utf8_ascii_app (a r : list Z) :
  Forall (fun b => 0 <= b <= 127) a -> decode_utf8 (a ++ r) = a ++ decode_utf8 r.
Proof.
  induction 1 as [|b a Hb _ IH]; [reflexivity|].
  cbn [app decode_utf8]. rewrite (proj2 (in_rng_true 0 127 b) Hb). rewrite IH. reflexivity.
Qed.

Lemma replace_crlf_app (a t : list Z) :
  Forall (fun c => c <> 13) a -> replace_crlf (a ++ t) = a ++ replace_crlf t.
Proof.
  induction 1 as [|c a Hc _ IH]; [reflexivity|].
  cbn [app]. rewrite replace_crlf_cons.
  destruct (Z.eqb_spec c 13); [contradiction|]. rewrite IH. reflexivity.
Qed.

Lemma replace_cr_app (a t : list Z) :
  Forall (fun c => c <> 13) a -> replace_cr (a ++ t) = a ++ replace_cr t.
Proof.
  induction 1 as [|c a Hc _ IH]; [reflexivity|].
  unfold replace_cr in *. cbn [app map]. rewrite IH.
  destruct (Z.eqb_spec c 13); [contradiction | reflexivity].
Qed.

Lemma lazy_to_bel_body (body t : list Z) :
  Forall (fun b => b <> 7 /\ b <> 10) body -> lazy_to_bel (body ++ 7 :: t) = Some t.
Proof.
  induction 1 as [|b body [H7 H10] _ IH]; [reflexivity|].
  cbn [app lazy_to_bel].
  destruct (Z.eqb_spec b 7); [contradiction|]. destruct (Z.eqb_spec b 10); [contradiction|].
  exact IH.
Qed.

(** A shell-integration fragment [133;X;...BEL] (what is left of an
    [ESC ] 133;X;... BEL] sequence once [ANSI_RE] has removed [ESC ]]),
    whether it arrives whole or with [ESC ]] still in front, contributes
    nothing to the sanitized text. *)
Theorem sanitize_drops_shell_mark (pre body rest : list Z) (x : Z) :
  pre = [] \/ pre = [27; 93] -> 65 <= x <= 90 ->
  Forall (fun b => 0 <= b <= 127 /\ b <> 7 /\ b <> 10 /\ b <> 13 /\ b <> 27) body ->
  sanitize (pre ++ [49; 51; 51; 59; x; 59] ++ body ++ 7 :: rest) = sanitize rest.
Proof.
  intros Hpre Hx Hb.
  set (a := [49; 51; 51; 59; x; 59] ++ body ++ [7]).
  assert (Ha : [49; 51; 51; 59; x; 59] ++ body ++ 7 :: rest = a ++ rest)
    by (unfold a; rewrite <- !app_assoc; reflexivity).
  assert (Hall : Forall (fun b => 0 <= b <= 127 /\ b <> 7 /\ b <> 10 /\ b <> 13 /\ b <> 27)
                   ([49; 51; 51; 59; x; 59] ++ body)).
  { apply Forall_app. split; [repeat (constructor; [lia|]); constructor | exact Hb]. }
  assert (Hq : forall P : Z -> Prop,
             (forall b, 0 <= b <= 127 /\ b <> 7 /\ b <> 10 /\ b <> 13 /\ b <> 27 -> P b) ->
             P 7 -> Forall P a).
  { intros P HP H7. unfold a. rewrite app_assoc. apply Forall_app. split.
    - eapply Forall_impl; [exact HP | exact Hall].
    - constructor; [exact H7 | constructor]. }
  rewrite Ha, sanitize_eq.
  assert (Hansi : re_sub ansi_match (pre ++ a ++ rest) = a ++ re_sub ansi_match rest).
  { destruct Hpre as [-> | ->].
    - apply (re_sub_ansi_noesc a rest). apply Hq; [intros b Hb'; lia | lia].
    - rewrite (re_sub_head ansi_match ansi_match_short ([27; 93] ++ a ++ rest) (a ++ rest))
        by reflexivity.
      apply (re_sub_ansi_noesc a rest). apply Hq; [intros b Hb'; lia | lia]. }
  rewrite Hansi, decode_utf8_ascii_app by (apply Hq; [intros b Hb'; lia | lia]).
  rewrite (sanitize_eq rest). unfold sanitize_text.
  rewrite replace_crlf_app, replace_cr_app by (apply Hq; [intros b Hb'; lia | lia]).
  rewrite (re_sub_head shell_mark_match shell_mark_match_short _
             (replace_cr (replace_crlf (decode_utf8 (re_sub ansi_match rest))))).
  { reflexivity. }
  unfold a. cbn [app shell_mark_match].
  rewrite (proj2 (in_rng_true 65 90 x) Hx). cbn. rewrite <- app_assoc.
  apply lazy_to_bel_body. eapply Forall_impl; [|exact Hb]. intros b (_ & H7 & H10 & _). split; assumption.
Qed.

Lemma sanitize_drops_shell_mark_witness :
  (([27; 93] : list Z) = [] \/ ([27; 93] : list Z) = [27; 93]) /\ 65 <= 65 <= 90 /\
  Forall (fun b => 0 <= b <= 127 /\ b <> 7 /\ b <> 10 /\ b <> 13 /\ b <> 27) [47; 116] /\
  sanitize ([27; 93] ++ [49; 51; 51; 59; 65; 59] ++ [47; 116] ++ 7 :: [36; 32])
  = sanitize [36; 32].
Proof.
  split; [right; reflexivity|].
  assert (H : Forall (fun b => 0 <= b <= 127 /\ b <> 7 /\ b <> 10 /\ b <> 13 /\ b <> 27)
                [47; 116]) by (repeat (constructor; [lia|]); constructor).
  split; [lia|]. split; [exact H|].
  apply (sanitize_drops_shell_mark [27; 93] [47; 116] [36; 32] 65); [right; reflexivity | lia | exact H].
Defined.

(** ** Lifecycle: close, restart, construction *)

Lemma close_fields (reaped : bool) (s : Session) :
  buffer (close reaped s) = buffer s /\ history (close reaped s) = history s
  /\ markers (close reaped s) = markers s /\ max_history (close reaped s) = max_history s
  /\ sent (close reaped s) = sent s /\ running (close reaped s) = false
  /\ fd_truthy (master_fd (close reaped s)) = false.
Proof.
  unfold close. destruct s as [b h run p mk mh fd o]. cbn.
  destruct fd as [n|]; cbn; [|repeat split].
  destruct (Z.eqb_spec n 0) as [->|]; cbn; repeat split.
Qed.

(** Closing twice leaves the session as one close does: the second call
    finds the descriptor already released and only records the child's
    status again. *)
Theorem close_twice (r1 r2 : bool) (s : Session) : close r2 (close r1 s) = close r2 s.
Proof.
  destruct s as [b h run p mk mh fd o].
  unfold close, set_running, set_proc, set_master_fd, fd_truthy; cbn.
  destruct p; destruct fd as [n|]; cbn; try reflexivity;
    destruct (Z.eqb_spec n 0) as [->|Hn]; cbn; try reflexivity;
    rewrite (proj2 (Z.eqb_neq n 0) Hn); reflexivity.
Qed.

(** After [close] the session is not alive and sends nothing: [write_raw]
    leaves it unchanged, [write] either leaves it unchanged or raises
    [UnicodeEncodeError], and [send_control] either leaves it unchanged or
    raises [TypeError]. *)
Theorem closed_session_sends_nothing (reaped : bool) (s : Session)
    (data text ch : list Z) (py_upper : list Z -> list Z) :
  is_alive (close reaped s) = false
  /\ write_raw (close reaped s) data = close reaped s
  /\ (write (close reaped s) text = Ok (close reaped s)
      \/ write (close reaped s) text = Err UnicodeEncodeError)
  /\ (send_control py_upper (close reaped s) ch = Ok (close reaped s)
      \/ send_control py_upper (close reaped s) ch = Err TypeError).
Proof.
  destruct (close_fields reaped s) as (_ & _ & _ & _ & _ & Hrun & Hfd).
  assert (Hw : forall d, write_raw (close reaped s) d = close reaped s)
    by (intros d; unfold write_raw; rewrite Hfd; reflexivity).
  split; [unfold is_alive; rewrite Hrun; reflexivity|].
  split; [apply Hw|]. split.
  - unfold write. destruct (encode_utf8 (rstrip text ++ [10])); [left; rewrite Hw|right];
      reflexivity.
  - unfold send_control.
    destruct (py_str_le [65] (py_upper ch) && py_str_le (py_upper ch) [90]); [|left; reflexivity].
    destruct (py_upper ch) as [|c [|d r]]; [right; reflexivity | left; rewrite Hw; reflexivity
                                           | right; reflexivity].
Qed.

(** [restart(wait_for_prompt=False)] returns [None] and leaves a fresh,
    alive session on the new descriptor with empty buffer and history; the
    markers, the history cap and what was sent before are kept. *)
Theorem restart_no_wait_fresh (reaped : bool) (master : Z) (timeout_ms t0 t1 : Z)
    (s : Session) (trace : list (list reader_event * Z)) :
  exists s3,
    restart reaped master false timeout_ms t0 t1 s trace = Some (Ok None, s3, O)
    /\ buffer s3 = [] /\ history s3 = [] /\ is_alive s3 = true
    /\ master_fd s3 = Some master /\ markers s3 = markers s
    /\ max_history s3 = max_history s /\ sent s3 = sent s.
Proof.
  destruct (close_fields reaped s) as (_ & _ & Hmk & Hmh & Hsent & _ & _).
  eexists. split; [reflexivity|].
  cbn. repeat split; assumption.
Qed.






(** A new [AGTerm] is alive on its descriptor with empty buffer, history
    and output, and its marker list is never empty: [None] and [[]] both
    fall back to the default prompts. *)
Theorem agterm_new_fresh (master max_history_bytes : Z)
    (ready_markers : option (list (list Z))) :
  markers (agterm_new master max_history_bytes ready_markers) <> []
  /\ (forall ms, ready_markers = Some ms -> ms <> [] ->
        markers (agterm_new master max_history_bytes ready_markers) = ms)
  /\ buffer (agterm_new master max_history_bytes ready_markers) = []
  /\ history (agterm_new master max_history_bytes ready_markers) = []
  /\ is_alive (agterm_new master max_history_bytes ready_markers) = true
  /\ master_fd (agterm_new master max_history_bytes ready_markers) = Some master.
Proof.
  repeat split.
  - cbn. unfold init_markers. destruct ready_markers as [[|m ms]|]; discriminate.
  - intros ms -> Hne. cbn. destruct ms; [contradiction | reflexivity].
Qed.

(** ** Sending a command and waiting *)


Lemma isspace_valid (c : Z) : py_isspace c = true -> valid_scalar c = true.
Proof.
  unfold py_isspace. intros H. apply valid_scalar_intro;
  repeat match goal with H : (_ || _) = true |- _ => apply orb_true_iff in H as [H|H] end;
  first [apply in_rng_true in H | apply Z.eqb_eq in H]; lia.
Qed.

Lemma encode_utf8_none (t : list Z) (c : Z) :
  In c t -> encode_char c = None -> encode_utf8 t = None.
Proof.
  induction t as [|a t IH]; [intros []|]. intros [<- | Hin] Hc; simpl.
  - rewrite Hc. reflexivity.
  - rewrite (IH Hin Hc). destruct (encode_char a); reflexivity.
Qed.

(** A command that holds a character [str.encode()] refuses (a lone
    surrogate) makes [send_and_read_until_ready] raise
    [UnicodeEncodeError] before anything is sent or read: the session is
    returned unchanged. *)
Theorem send_and_read_encode_error (cmd : list Z) (c : Z) (timeout_ms t0 t1 : Z)
    (s : Session) (trace : list (list reader_event * Z)) :
  In c cmd -> encode_char c = None ->
  send_and_read_until_ready cmd timeout_ms t0 t1 s trace = Some (Err UnicodeEncodeError, s, O).
Proof.
  intros Hin Hc.
  destruct (rstrip_split cmd) as [[ws [Hws Hsp]] _].
  assert (Hr : In c (rstrip cmd)).
  { rewrite Hws in Hin. apply in_app_or in Hin as [H | H]; [exact H|].
    rewrite Forall_forall in Hsp. apply Hsp, isspace_valid, encode_char_valid in H.
    destruct H as [b Hb]. congruence. }
  unfold send_and_read_until_ready, write.
  rewrite (encode_utf8_none (rstrip cmd ++ [10]) c) by (auto using in_or_app).
  reflexivity.
Qed.

Lemma send_and_read_encode_error_witness :
  In 55296 [108; 55296; 115] /\ encode_char 55296 = None /\
  send_and_read_until_ready [108; 55296; 115] 1000 0 0 (started_session 5) []
  = Some (Err UnicodeEncodeError, started_session 5, O).
Proof.
  assert (H1 : In 55296 [108; 55296; 115]) by (right; left; reflexivity).
  assert (H2 : encode_char 55296 = None) by reflexivity.
  split; [exact H1|]. split; [exact H2|].
  apply (send_and_read_encode_error _ 55296 _ _ _ _ _ H1 H2).
Defined.




(** ** Control characters *)

(** When [char.upper()] is one character [u], [send_control] sends the
    single byte [ord(u) - 64] if [u] is one of [A]..[Z] and otherwise sends
    nothing and returns normally. *)
Theorem send_control_one_char (py_upper : list Z -> list Z) (s : Session)
    (ch : list Z) (u : Z) :
  py_upper ch = [u] ->
  send_control py_upper s ch = Ok (if in_rng 65 90 u then write_raw s [u - 64] else s).
Proof.
  intros Hu. unfold send_control. rewrite Hu.
  assert (Hb : py_str_le [65] [u] && py_str_le [u] [90] = in_rng 65 90 u).
  { cbn [py_str_le]. unfold in_rng.
    destruct (Z.leb_spec 65 u), (Z.leb_spec u 90), (Z.ltb_spec 65 u), (Z.eqb_spec 65 u),
      (Z.ltb_spec u 90), (Z.eqb_spec u 90); cbn; try reflexivity; lia. }
  rewrite Hb. destruct (in_rng 65 90 u); [|reflexivity].
  replace (u - 65 + 1) with (u - 64) by lia. reflexivity.
Qed.

Lemma send_control_one_char_witness :
  upper_latin1 [99] = [67] /\
  send_control upper_latin1 (started_session 5) [99]
  = Ok (if in_rng 65 90 67 then write_raw (started_session 5) [67 - 64]
        else started_session 5).
Proof.
  assert (H : upper_latin1 [99] = [67]) by reflexivity.
  split; [exact H|].
  exact (send_control_one_char upper_latin1 (started_session 5) [99] 67 H).
Defined.
